(** * Memory: the couple bucket-list backend ([backend/server.py])

    A shallow embedding of the FastAPI request handlers over the MongoDB
    collections [users], [user_sessions], [bucket_items] and
    [completed_items], followed by the properties of pairing, sessions and
    the shared list.

    Modelling conventions.
    - A collection is the list of its documents in insertion order:
      [find_one] returns the first match, [update_one] and [delete_one] act
      on the first match, [insert_one] appends.
    - Strings are [string] (bytes); [str.lower] is modelled on ASCII.
    - A [datetime] is an integer number of milliseconds since the epoch;
      the clock reads of one request are identified with one reading [now].
    - [uuid.uuid4().hex], [random.choices] and the OAuth HTTP call are inputs
      of the request, gathered in [Env]; the password hasher is an interface.
    - A handler is a function from the store to an outcome that carries the
      store it leaves behind, also when it raises. *)

From Stdlib Require Import String Ascii List ZArith Bool Lia Permutation Sorted.
From Stdlib Require Import DecimalString.
Import ListNotations.
Open Scope string_scope.
Open Scope list_scope.
Open Scope Z_scope.

(** ** Python strings *)

Module Py.

(** [bool(s)] of an [Optional[str]]: [None] and the empty string are falsy. *)
Definition truthy (o : option string) : bool :=
  match o with
  | Some s => negb (s =? EmptyString)%string
  | None => false
  end.

(** [s.replace(old, new)] for a non-empty [old]: every non-overlapping
    occurrence, scanning from the left.  [skip] counts the characters of a
    matched occurrence still to be dropped. *)
Fixpoint replace_from (old new : string) (skip : nat) (s : string) : string :=
  match s with
  | EmptyString => EmptyString
  | String c rest =>
      match skip with
      | S k => replace_from old new k rest
      | O =>
          if String.prefix old s
          then (new ++ replace_from old new (Nat.pred (String.length old)) rest)%string
          else String c (replace_from old new 0 rest)
      end
  end.

Definition replace (old new s : string) : string := replace_from old new 0 s.

(** [s.lower()] on ASCII letters. *)
Definition lower_ascii (c : ascii) : ascii :=
  let n := nat_of_ascii c in
  if (Nat.leb 65 n && Nat.leb n 90)%bool then ascii_of_nat (n + 32) else c.

Fixpoint lower (s : string) : string :=
  match s with
  | EmptyString => EmptyString
  | String c rest => String (lower_ascii c) (lower rest)
  end.

(** [s[:n]] *)
Definition slice_to (n : nat) (s : string) : string := String.substring 0 n s.

End Py.

(** ** Documents and models *)

(** A document of [db.users].  [password_hash] is [None] when the key is
    absent (accounts provisioned by the OAuth exchange). *)
Module UserDoc.
Record t := mk {
  user_id : string;
  email : string;
  name : string;
  password_hash : option string;
  picture : option string;
  friend_code : string;
  partner_id : option string;
  created_at : Z
}.
End UserDoc.

(** [class User(BaseModel)] *)
Module User.
Record t := mk {
  user_id : string;
  email : string;
  name : string;
  picture : option string;
  friend_code : string;
  partner_id : option string;
  created_at : Z
}.

(** The [User] model built from a user document: the extra key
    [password_hash] is ignored. *)
Definition of_doc (d : UserDoc.t) : t :=
  mk (UserDoc.user_id d) (UserDoc.email d) (UserDoc.name d) (UserDoc.picture d)
     (UserDoc.friend_code d) (UserDoc.partner_id d) (UserDoc.created_at d).
End User.

(** A document of [db.user_sessions]. *)
Module Session.
Record t := mk {
  user_id : string;
  session_token : string;
  expires_at : Z;
  created_at : Z
}.
End Session.

(** [class BucketItem(BaseModel)], also the shape of [db.bucket_items]. *)
Module BucketItem.
Record t := mk {
  item_id : string;
  title : string;
  category : string;
  created_by : string;
  created_at : Z;
  completed : bool;
  shared_with : list string
}.
End BucketItem.

(** [class CompletedItem(BaseModel)], also the shape of [db.completed_items]. *)
Module CompletedItem.
Record t := mk {
  completed_id : string;
  item_id : string;
  title : string;
  category : string;
  photo_base64 : string;
  notes : option string;
  completed_at : Z;
  completed_by : string
}.
End CompletedItem.

Record RegisterRequest := { rr_email : string; rr_password : string; rr_name : string }.
Record LoginRequest := { lr_email : string; lr_password : string }.
Record LoginResponse := { login_session_token : string; login_user : User.t }.
Record BucketItemCreate := { bic_title : string; bic_category : string }.
Record CompleteItemRequest :=
  { cir_item_id : string; cir_photo_base64 : string; cir_notes : option string }.
Record ConnectFriendRequest := { cfr_friend_code : string }.

(** [class SessionDataResponse(BaseModel)], the JSON object of the OAuth
    session-data endpoint. *)
Record SessionDataResponse := {
  sd_id : string;
  sd_email : string;
  sd_name : string;
  sd_picture : option string;
  sd_session_token : string
}.

(** The [httpx] response of the OAuth call. *)
Record HttpResponse := { status_code : Z; json : SessionDataResponse }.

(** ** The store *)

Record db := mkdb {
  users : list UserDoc.t;
  user_sessions : list Session.t;
  bucket_items : list BucketItem.t;
  completed_items : list CompletedItem.t
}.

Definition empty_db : db := mkdb [] [] [] [].

Definition set_users (f : list UserDoc.t -> list UserDoc.t) (d : db) : db :=
  mkdb (f (users d)) (user_sessions d) (bucket_items d) (completed_items d).
Definition set_user_sessions (f : list Session.t -> list Session.t) (d : db) : db :=
  mkdb (users d) (f (user_sessions d)) (bucket_items d) (completed_items d).
Definition set_bucket_items (f : list BucketItem.t -> list BucketItem.t) (d : db) : db :=
  mkdb (users d) (user_sessions d) (f (bucket_items d)) (completed_items d).
Definition set_completed_items (f : list CompletedItem.t -> list CompletedItem.t) (d : db) : db :=
  mkdb (users d) (user_sessions d) (bucket_items d) (f (completed_items d)).

(** Collection primitives on the list of documents. *)
Module Coll.
Section Coll.
Context {D : Type}.

(** [update_one(q, {"$set": ...})]: the first match is rewritten. *)
Fixpoint update_first (q : D -> bool) (f : D -> D) (l : list D) : list D :=
  match l with
  | [] => []
  | x :: rest => if q x then f x :: rest else x :: update_first q f rest
  end.

(** [delete_one(q)]: the first match is removed. *)
Fixpoint delete_first (q : D -> bool) (l : list D) : list D :=
  match l with
  | [] => []
  | x :: rest => if q x then rest else x :: delete_first q rest
  end.

(** [deleted_count] of [delete_one(q)]. *)
Definition deleted_count (q : D -> bool) (l : list D) : Z :=
  if existsb q l then 1 else 0.
End Coll.
End Coll.

(** ** Handlers: state and exceptions *)

Inductive exn :=
| HTTPException (status : Z) (detail : string)
| AttributeError.

(** [Pending]: the friend-code loop has used up the draws it was given. *)
Inductive outcome (A : Type) :=
| Return (a : A) (d : db)
| Raise (e : exn) (d : db)
| Pending.
Arguments Return {A} a d.
Arguments Raise {A} e d.
Arguments Pending {A}.

Definition handler (A : Type) : Type := db -> outcome A.

Definition ret {A} (a : A) : handler A := fun d => Return a d.
Definition raise {A} (e : exn) : handler A := fun d => Raise e d.
Definition pending {A} : handler A := fun _ => Pending.
Definition bind {A B} (c : handler A) (k : A -> handler B) : handler B :=
  fun d =>
    match c d with
    | Return a d' => k a d'
    | Raise e d' => Raise e d'
    | Pending => Pending
    end.

Declare Scope handler_scope.
Delimit Scope handler_scope with handler.
Notation "x <- c ;; k" := (bind c (fun x => k))
  (at level 61, c at next level, right associativity) : handler_scope.
Notation "c ;; k" := (bind c (fun _ => k))
  (at level 61, right associativity) : handler_scope.
Open Scope handler_scope.

Definition find_one {D} (coll : db -> list D) (q : D -> bool) : handler (option D) :=
  fun d => Return (find q (coll d)) d.
Definition find_all {D} (coll : db -> list D) (q : D -> bool) : handler (list D) :=
  fun d => Return (filter q (coll d)) d.
Definition modify (f : db -> db) : handler unit := fun d => Return tt (f d).

(** The store outcome of a handler run. *)
Definition store_after {A} (o : outcome A) (d0 : db) : db :=
  match o with
  | Return _ d => d
  | Raise _ d => d
  | Pending => d0
  end.

(** ** Error kinds of the specification, as the code raises them *)

Definition NotAuthenticated := HTTPException 401 "Not authenticated".
Definition InvalidSession := HTTPException 401 "Invalid session".
Definition SessionExpired := HTTPException 401 "Session expired".
Definition UserNotFound := HTTPException 404 "User not found".
Definition EmailTaken := HTTPException 400 "Email already registered".
Definition InvalidCredentials := HTTPException 401 "Invalid email or password".
Definition OAuthOnlyAccount :=
  HTTPException 401 "Please use Google sign-in for this account".
Definition SessionIdRequired := HTTPException 400 "Session ID required".
Definition ExternalAuthRejected := HTTPException 401 "Invalid session ID".
Definition AlreadyPaired := HTTPException 400 "You already have a partner".
Definition FriendCodeNotFound := HTTPException 404 "Friend code not found".
Definition SelfPairing := HTTPException 400 "Cannot connect with yourself".
Definition TargetAlreadyPaired := HTTPException 400 "This user already has a partner".
Definition NoPartner :=
  HTTPException 400 "You need a partner to create bucket list items".
Definition ItemNotFound := HTTPException 404 "Item not found".
Definition NotFound := HTTPException 404 "Item not found or already completed".

(** The specification's [Unauthenticated] covers both 401 details of a
    missing header and of an unknown token. *)
Definition Unauthenticated (e : exn) : Prop :=
  e = NotAuthenticated \/ e = InvalidSession.

(** ** Inputs of a request that the handler does not compute *)

(** [timedelta(days=7)] in milliseconds. *)
Definition seven_days : Z := 7 * 24 * 60 * 60 * 1000.

Record Env := {
  now : Z;                        (* datetime.now(timezone.utc) *)
  uuid_1 : string;                (* first uuid.uuid4().hex of the request *)
  uuid_2 : string;                (* second uuid.uuid4().hex of the request *)
  friend_codes : list string;     (* successive generate_friend_code() results *)
  salt : string;                  (* randomness of pwd_context.hash *)
  oauth : HttpResponse            (* response of the session-data endpoint *)
}.

(** [passlib.context.CryptContext] *)
Class CryptContext := {
  pwd_hash : string -> string -> string;   (* salt, secret *)
  pwd_verify : string -> string -> bool    (* secret, hash *)
}.

(** ** Store operations used by the handlers *)

Definition insert_user (u : UserDoc.t) : handler unit :=
  modify (set_users (fun l => l ++ [u])).
Definition insert_session (s : Session.t) : handler unit :=
  modify (set_user_sessions (fun l => l ++ [s])).
Definition insert_bucket_item (b : BucketItem.t) : handler unit :=
  modify (set_bucket_items (fun l => l ++ [b])).
Definition insert_completed_item (c : CompletedItem.t) : handler unit :=
  modify (set_completed_items (fun l => l ++ [c])).

(** [db.users.update_one({"user_id": uid}, {"$set": {"partner_id": p}})] *)
Definition set_partner_id (p : string) (u : UserDoc.t) : UserDoc.t :=
  UserDoc.mk (UserDoc.user_id u) (UserDoc.email u) (UserDoc.name u)
    (UserDoc.password_hash u) (UserDoc.picture u) (UserDoc.friend_code u)
    (Some p) (UserDoc.created_at u).

Definition has_user_id (uid : string) (u : UserDoc.t) : bool :=
  (UserDoc.user_id u =? uid)%string.
Definition has_friend_code (code : string) (u : UserDoc.t) : bool :=
  (UserDoc.friend_code u =? code)%string.
Definition has_email (e : string) (u : UserDoc.t) : bool :=
  (UserDoc.email u =? e)%string.
Definition has_token (tok : string) (s : Session.t) : bool :=
  (Session.session_token s =? tok)%string.

Definition update_partner_id (uid p : string) : handler unit :=
  modify (set_users (Coll.update_first (has_user_id uid) (set_partner_id p))).

(** [{"$set": {"completed": True}}] *)
Definition set_completed (b : BucketItem.t) : BucketItem.t :=
  BucketItem.mk (BucketItem.item_id b) (BucketItem.title b) (BucketItem.category b)
    (BucketItem.created_by b) (BucketItem.created_at b) true (BucketItem.shared_with b).

Definition has_item_id (iid : string) (b : BucketItem.t) : bool :=
  (BucketItem.item_id b =? iid)%string.

(** The query [{"shared_with": uid}] on an array field: the array holds [uid]. *)
Definition shared_with_has (uid : string) (b : BucketItem.t) : bool :=
  existsb (String.eqb uid) (BucketItem.shared_with b).

(** [delete_one(q)] on [db.bucket_items], returning [deleted_count]. *)
Definition delete_one_bucket_item (q : BucketItem.t -> bool) : handler Z :=
  fun d =>
    Return (Coll.deleted_count q (bucket_items d))
           (set_bucket_items (Coll.delete_first q) d).

(** [.sort("completed_at", -1)]: insertion sort, newest first, keeping the
    store order among equal timestamps. *)
Fixpoint insert_desc (x : CompletedItem.t) (l : list CompletedItem.t) : list CompletedItem.t :=
  match l with
  | [] => [x]
  | y :: rest =>
      if CompletedItem.completed_at y <=? CompletedItem.completed_at x
      then x :: l
      else y :: insert_desc x rest
  end.

Definition sort_completed_at_desc (l : list CompletedItem.t) : list CompletedItem.t :=
  fold_right insert_desc [] l.

(** [.to_list(1000)] *)
Definition to_list {D} (n : nat) (l : list D) : list D := firstn n l.

(** ** The request handlers *)

Record ConnectResponse := { connect_message : string; connect_partner : UserDoc.t }.

Section Server.
Context {pwd_context : CryptContext}.

(** [get_current_user] *)
Definition get_current_user (env : Env) (authorization : option string) : handler User.t :=
  if negb (Py.truthy authorization) then raise NotAuthenticated else
  let session_token :=
    Py.replace "Bearer " EmptyString
      (match authorization with Some a => a | None => EmptyString end) in
  session <- find_one user_sessions (has_token session_token) ;;
  match session with
  | None => raise InvalidSession
  | Some session =>
      let expires_at := Session.expires_at session in
      if expires_at <? now env then raise SessionExpired else
      user_doc <- find_one users (has_user_id (Session.user_id session)) ;;
      match user_doc with
      | None => raise UserNotFound
      | Some user_doc => ret (User.of_doc user_doc)
      end
  end.

(** The loop of [register] and [create_session]:
    [friend_code = generate_friend_code()], then regenerate while some
    user holds it.  [draws] are the successive generator results. *)
Fixpoint unique_friend_code (draws : list string) : handler string :=
  match draws with
  | [] => pending
  | friend_code :: rest =>
      holder <- find_one users (has_friend_code friend_code) ;;
      match holder with
      | Some _ => unique_friend_code rest
      | None => ret friend_code
      end
  end.

(** [register] *)
Definition register (env : Env) (request : RegisterRequest) : handler LoginResponse :=
  existing_user <- find_one users (has_email (Py.lower (rr_email request))) ;;
  match existing_user with
  | Some _ => raise EmailTaken
  | None =>
      let hashed_password := pwd_hash (salt env) (rr_password request) in
      let user_id := ("user_" ++ Py.slice_to 12 (uuid_1 env))%string in
      friend_code <- unique_friend_code (friend_codes env) ;;
      let user_doc :=
        UserDoc.mk user_id (Py.lower (rr_email request)) (rr_name request)
          (Some hashed_password) None friend_code None (now env) in
      insert_user user_doc ;;
      let session_token := ("session_" ++ uuid_2 env)%string in
      insert_session
        (Session.mk user_id session_token (now env + seven_days) (now env)) ;;
      ret {| login_session_token := session_token;
             login_user :=
               User.mk user_id (Py.lower (rr_email request)) (rr_name request)
                 None friend_code None (now env) |}
  end.

(** [login] *)
Definition login (env : Env) (request : LoginRequest) : handler LoginResponse :=
  user_doc <- find_one users (has_email (Py.lower (lr_email request))) ;;
  match user_doc with
  | None => raise InvalidCredentials
  | Some user_doc =>
      match UserDoc.password_hash user_doc with
      | None => raise OAuthOnlyAccount
      | Some password_hash =>
          if negb (pwd_verify (lr_password request) password_hash)
          then raise InvalidCredentials else
          let session_token := ("session_" ++ uuid_1 env)%string in
          insert_session
            (Session.mk (UserDoc.user_id user_doc) session_token
               (now env + seven_days) (now env)) ;;
          ret {| login_session_token := session_token;
                 login_user := User.of_doc user_doc |}
      end
  end.

(** [create_session]: the OAuth exchange. *)
Definition create_session (env : Env) (session_id : option string)
  : handler SessionDataResponse :=
  if negb (Py.truthy session_id) then raise SessionIdRequired else
  let response := oauth env in
  if negb (status_code response =? 200) then raise ExternalAuthRejected else
  let user_data := json response in
  let session_token := sd_session_token user_data in
  existing_user <- find_one users (has_email (sd_email user_data)) ;;
  user_id <-
    match existing_user with
    | Some existing_user => ret (UserDoc.user_id existing_user)
    | None =>
        let user_id := ("user_" ++ Py.slice_to 12 (uuid_1 env))%string in
        friend_code <- unique_friend_code (friend_codes env) ;;
        insert_user
          (UserDoc.mk user_id (sd_email user_data) (sd_name user_data) None
             (sd_picture user_data) friend_code None (now env)) ;;
        ret user_id
    end ;;
  insert_session
    (Session.mk user_id session_token (now env + seven_days) (now env)) ;;
  ret user_data.

(** [logout], after its dependency [get_current_user] has returned. *)
Definition logout (current_user : User.t) (authorization : option string)
  : handler string :=
  (if Py.truthy authorization then
     let session_token :=
       Py.replace "Bearer " EmptyString
      (match authorization with Some a => a | None => EmptyString end) in
     modify (set_user_sessions (Coll.delete_first (has_token session_token)))
   else ret tt) ;;
  ret "Logged out successfully".

(** [connect_friend] *)
Definition connect_friend (request : ConnectFriendRequest) (current_user : User.t)
  : handler ConnectResponse :=
  if Py.truthy (User.partner_id current_user) then raise AlreadyPaired else
  friend <- find_one users (has_friend_code (cfr_friend_code request)) ;;
  match friend with
  | None => raise FriendCodeNotFound
  | Some friend =>
      if (UserDoc.user_id friend =? User.user_id current_user)%string
      then raise SelfPairing else
      if Py.truthy (UserDoc.partner_id friend) then raise TargetAlreadyPaired else
      update_partner_id (User.user_id current_user) (UserDoc.user_id friend) ;;
      update_partner_id (UserDoc.user_id friend) (User.user_id current_user) ;;
      ret {| connect_message := "Connected successfully"; connect_partner := friend |}
  end.

(** [get_bucket_list] *)
Definition get_bucket_list (current_user : User.t) : handler (list BucketItem.t) :=
  items <- find_all bucket_items
             (fun b => shared_with_has (User.user_id current_user) b
                       && negb (BucketItem.completed b)) ;;
  ret (to_list 1000 items).

(** [create_bucket_item] *)
Definition create_bucket_item (env : Env) (item : BucketItemCreate) (current_user : User.t)
  : handler BucketItem.t :=
  user_doc <- find_one users (has_user_id (User.user_id current_user)) ;;
  match user_doc with
  | None => raise AttributeError
  | Some user_doc =>
      match UserDoc.partner_id user_doc with
      | None => raise NoPartner
      | Some partner_id =>
          if (partner_id =? EmptyString)%string then raise NoPartner else
          let shared_with := [User.user_id current_user; partner_id] in
          let item_id := ("item_" ++ Py.slice_to 12 (uuid_1 env))%string in
          let bucket_item :=
            BucketItem.mk item_id (bic_title item) (bic_category item)
              (User.user_id current_user) (now env) false shared_with in
          insert_bucket_item bucket_item ;;
          ret bucket_item
      end
  end.

(** [delete_bucket_item] *)
Definition delete_bucket_item (item_id : string) (current_user : User.t) : handler string :=
  deleted_count <-
    delete_one_bucket_item
      (fun b => has_item_id item_id b && shared_with_has (User.user_id current_user) b) ;;
  if deleted_count =? 0 then raise ItemNotFound else ret "Item deleted successfully".

(** The filter of [complete_bucket_item]'s [find_one]. *)
Definition completable (item_id uid : string) (b : BucketItem.t) : bool :=
  has_item_id item_id b && shared_with_has uid b && negb (BucketItem.completed b).

(** [complete_bucket_item] *)
Definition complete_bucket_item (env : Env) (request : CompleteItemRequest)
    (current_user : User.t) : handler CompletedItem.t :=
  item <- find_one bucket_items
            (completable (cir_item_id request) (User.user_id current_user)) ;;
  match item with
  | None => raise NotFound
  | Some item =>
      modify (set_bucket_items
                (Coll.update_first (has_item_id (cir_item_id request)) set_completed)) ;;
      let completed_id := ("completed_" ++ Py.slice_to 12 (uuid_1 env))%string in
      let completed_item :=
        CompletedItem.mk completed_id (cir_item_id request) (BucketItem.title item)
          (BucketItem.category item) (cir_photo_base64 request) (cir_notes request)
          (now env) (User.user_id current_user) in
      insert_completed_item completed_item ;;
      ret completed_item
  end.

(** The filter [{"completed_by": {"$in": [a, b]}}]. *)
Definition completed_by_in (ids : list string) (c : CompletedItem.t) : bool :=
  existsb (String.eqb (CompletedItem.completed_by c)) ids.

(** [get_completed_items] *)
Definition get_completed_items (current_user : User.t) : handler (list CompletedItem.t) :=
  user_doc <- find_one users (has_user_id (User.user_id current_user)) ;;
  match user_doc with
  | None => raise AttributeError
  | Some user_doc =>
      match UserDoc.partner_id user_doc with
      | None => ret []
      | Some partner_id =>
          if (partner_id =? EmptyString)%string then ret [] else
          items <- find_all completed_items
                     (completed_by_in [User.user_id current_user; partner_id]) ;;
          ret (to_list 1000 (sort_completed_at_desc items))
      end
  end.

(** *** The API: one request, with its dependency on [get_current_user] *)

Inductive request :=
| POST_auth_register (r : RegisterRequest)
| POST_auth_login (r : LoginRequest)
| POST_auth_session (x_session_id : option string)
| GET_auth_me (authorization : option string)
| POST_auth_logout (authorization : option string)
| POST_connect_friend (r : ConnectFriendRequest) (authorization : option string)
| GET_bucketlist (authorization : option string)
| POST_bucketlist (item : BucketItemCreate) (authorization : option string)
| DELETE_bucketlist (item_id : string) (authorization : option string)
| POST_bucketlist_complete (r : CompleteItemRequest) (authorization : option string)
| GET_completed (authorization : option string).

Inductive response :=
| R_login (r : LoginResponse)
| R_session_data (r : SessionDataResponse)
| R_user (u : User.t)
| R_message (m : string)
| R_connected (r : ConnectResponse)
| R_bucket_items (l : list BucketItem.t)
| R_bucket_item (b : BucketItem.t)
| R_completed_item (c : CompletedItem.t)
| R_completed_items (l : list CompletedItem.t).

Definition handle (env : Env) (req : request) : handler response :=
  match req with
  | POST_auth_register r => x <- register env r ;; ret (R_login x)
  | POST_auth_login r => x <- login env r ;; ret (R_login x)
  | POST_auth_session sid => x <- create_session env sid ;; ret (R_session_data x)
  | GET_auth_me auth => u <- get_current_user env auth ;; ret (R_user u)
  | POST_auth_logout auth =>
      u <- get_current_user env auth ;; m <- logout u auth ;; ret (R_message m)
  | POST_connect_friend r auth =>
      u <- get_current_user env auth ;; x <- connect_friend r u ;; ret (R_connected x)
  | GET_bucketlist auth =>
      u <- get_current_user env auth ;; x <- get_bucket_list u ;; ret (R_bucket_items x)
  | POST_bucketlist item auth =>
      u <- get_current_user env auth ;; x <- create_bucket_item env item u ;;
      ret (R_bucket_item x)
  | DELETE_bucketlist item_id auth =>
      u <- get_current_user env auth ;; m <- delete_bucket_item item_id u ;;
      ret (R_message m)
  | POST_bucketlist_complete r auth =>
      u <- get_current_user env auth ;; x <- complete_bucket_item env r u ;;
      ret (R_completed_item x)
  | GET_completed auth =>
      u <- get_current_user env auth ;; x <- get_completed_items u ;;
      ret (R_completed_items x)
  end.

End Server.

(** ** Executions *)

Section Executions.
Context {pwd_context : CryptContext}.

(** What [uuid.uuid4()] promises: an identifier the store has not seen.
    Only the identifiers that key a collection matter. *)
Definition uuid_fresh (env : Env) (req : request) (d : db) : Prop :=
  match req with
  | POST_auth_register _ | POST_auth_session _ =>
      ~ In ("user_" ++ Py.slice_to 12 (uuid_1 env))%string (map UserDoc.user_id (users d))
  | POST_bucketlist _ _ =>
      ~ In ("item_" ++ Py.slice_to 12 (uuid_1 env))%string
           (map BucketItem.item_id (bucket_items d)) /\
      ~ In ("item_" ++ Py.slice_to 12 (uuid_1 env))%string
           (map CompletedItem.item_id (completed_items d))
  | _ => True
  end.

(** The store after serving one request. *)
Definition serve (env : Env) (req : request) (d : db) : db :=
  store_after (handle env req d) d.

(** [run d d']: the server takes the store from [d] to [d'] by serving
    requests one after the other. *)
Inductive run (d : db) : db -> Prop :=
| run_here : run d d
| run_serve d' env req :
    run d d' -> uuid_fresh env req d' -> run d (serve env req d').

Definition reachable (d : db) : Prop := run empty_db d.

(** A script of requests with their inputs, played from a store. *)
Definition play (script : list (Env * request)) (d : db) : db :=
  fold_left (fun d er => serve (fst er) (snd er) d) script d.

(** [uuid_fresh], decided. *)
Definition is_new (id : string) (ids : list string) : bool :=
  negb (existsb (String.eqb id) ids).

Definition uuid_freshb (env : Env) (req : request) (d : db) : bool :=
  match req with
  | POST_auth_register _ | POST_auth_session _ =>
      is_new ("user_" ++ Py.slice_to 12 (uuid_1 env))%string (map UserDoc.user_id (users d))
  | POST_bucketlist _ _ =>
      is_new ("item_" ++ Py.slice_to 12 (uuid_1 env))%string
        (map BucketItem.item_id (bucket_items d)) &&
      is_new ("item_" ++ Py.slice_to 12 (uuid_1 env))%string
        (map CompletedItem.item_id (completed_items d))
  | _ => true
  end.

Fixpoint all_fresh (script : list (Env * request)) (d : db) : bool :=
  match script with
  | [] => true
  | (env, req) :: rest => uuid_freshb env req d && all_fresh rest (serve env req d)
  end.

(** ** Well-formed stores *)

(** The pairing invariant: a set [partner_id] names another stored user
    whose [partner_id] points back. *)
Definition mutual_pairs_in (l : list UserDoc.t) : Prop :=
  forall u p, In u l -> UserDoc.partner_id u = Some p ->
    p <> EmptyString /\ p <> UserDoc.user_id u /\
    exists v, In v l /\ UserDoc.user_id v = p /\
              UserDoc.partner_id v = Some (UserDoc.user_id u).

Definition mutual_pairs (d : db) : Prop := mutual_pairs_in (users d).

Record well_formed (d : db) : Prop := {
  wf_user_ids : NoDup (map UserDoc.user_id (users d));
  wf_user_ids_set : forall u, In u (users d) -> UserDoc.user_id u <> EmptyString;
  wf_friend_codes : NoDup (map UserDoc.friend_code (users d));
  wf_pairs : mutual_pairs d;
  wf_item_ids : NoDup (map BucketItem.item_id (bucket_items d));
  wf_completed_ids : NoDup (map CompletedItem.item_id (completed_items d));
  wf_completed_flag :
    forall c b, In c (completed_items d) -> In b (bucket_items d) ->
      BucketItem.item_id b = CompletedItem.item_id c -> BucketItem.completed b = true
}.

End Executions.

(** ** A concrete hasher and a concrete session, for running the model *)

Module Demo.

#[local] Instance plain : CryptContext :=
  {| pwd_hash := fun salt secret => (salt ++ "$" ++ secret)%string;
     pwd_verify := fun secret h =>
       match String.index 0 "$" h with
       | Some n => (String.substring (S n) (String.length h) h =? secret)%string
       | None => false
       end |}.

Definition no_oauth : HttpResponse :=
  {| status_code := 401;
     json := Build_SessionDataResponse EmptyString EmptyString EmptyString None
               EmptyString |}.

Definition env_a : Env :=
  {| now := 1000; uuid_1 := "aaaaaaaaaaaa0000"; uuid_2 := "a1";
     friend_codes := ["AAAAA"]; salt := "s"; oauth := no_oauth |}.
Definition env_b : Env :=
  {| now := 2000; uuid_1 := "bbbbbbbbbbbb0000"; uuid_2 := "b1";
     friend_codes := ["AAAAA"; "BBBBB"]; salt := "s"; oauth := no_oauth |}.
Definition env_at (t : Z) (u : string) : Env :=
  {| now := t; uuid_1 := u; uuid_2 := EmptyString; friend_codes := []; salt := EmptyString;
     oauth := no_oauth |}.

Definition bearer_a : option string := Some "Bearer session_a1".
Definition bearer_b : option string := Some "Bearer session_b1".

(** Register A, register B, A connects with B's code. *)
Definition script_reg_a : list (Env * request) :=
  [(env_a, POST_auth_register (Build_RegisterRequest "A@x.com" "pw" "A"))].
Definition script_reg_ab : list (Env * request) :=
  script_reg_a ++ [(env_b, POST_auth_register (Build_RegisterRequest "b@x.com" "pw" "B"))].
Definition script_paired : list (Env * request) :=
  script_reg_ab ++
  [(env_at 3000 EmptyString,
    POST_connect_friend (Build_ConnectFriendRequest "BBBBB") bearer_a)].
(** A creates an item, A completes it, B deletes it. *)
Definition script_item : list (Env * request) :=
  script_paired ++
  [(env_at 4000 "111111111111",
    POST_bucketlist (Build_BucketItemCreate "Visit Paris" "Travel") bearer_a)].
Definition script_done : list (Env * request) :=
  script_item ++
  [(env_at 5000 "222222222222",
    POST_bucketlist_complete
      (Build_CompleteItemRequest "item_111111111111" "P1" None) bearer_a)].
Definition script_deleted : list (Env * request) :=
  script_done ++
  [(env_at 6000 EmptyString, DELETE_bucketlist "item_111111111111" bearer_b)].

Definition db_reg_a : db := play script_reg_a empty_db.
Definition db_reg_ab : db := play script_reg_ab empty_db.
Definition db_paired : db := play script_paired empty_db.
Definition db_item : db := play script_item empty_db.
Definition db_done : db := play script_done empty_db.
Definition db_deleted : db := play script_deleted empty_db.

(** The stored documents of A and B before pairing, and their models. *)
Definition doc_a : UserDoc.t :=
  UserDoc.mk "user_aaaaaaaaaaaa" "a@x.com" "A" (Some "s$pw") None "AAAAA" None 1000.
Definition doc_b : UserDoc.t :=
  UserDoc.mk "user_bbbbbbbbbbbb" "b@x.com" "B" (Some "s$pw") None "BBBBB" None 2000.
Definition user_a : User.t := User.of_doc doc_a.
Definition user_b : User.t := User.of_doc doc_b.

(** A registers and logs out. *)
Definition script_logged_out : list (Env * request) :=
  script_reg_a ++ [(env_at 3000 EmptyString, POST_auth_logout bearer_a)].
Definition db_logged_out : db := play script_logged_out empty_db.

(** An OAuth exchange for which the identity service returns A's email in
    another case. *)
Definition oauth_data : SessionDataResponse :=
  {| sd_id := "g1"; sd_email := "A@x.com"; sd_name := "A"; sd_picture := None;
     sd_session_token := "ext_tok" |}.
Definition env_oauth : Env :=
  {| now := 2000; uuid_1 := "cccccccccccc0000"; uuid_2 := EmptyString;
     friend_codes := ["CCCCC"]; salt := EmptyString;
     oauth := {| status_code := 200; json := oauth_data |} |}.
Definition script_oauth : list (Env * request) :=
  script_reg_a ++ [(env_oauth, POST_auth_session (Some "sid"))].
Definition db_oauth : db := play script_oauth empty_db.

(** The pair creates and completes [n] items, one after the other: item
    [k] is created by A at time [10000 + 2k] and completed by B right
    after. *)
Definition decimal (n : nat) : string := NilEmpty.string_of_uint (Nat.to_uint n).

Definition create_and_complete (k : nat) : list (Env * request) :=
  let t := 10000 + 2 * Z.of_nat k in
  [(env_at t (decimal k),
    POST_bucketlist (Build_BucketItemCreate "Visit Paris" "Travel") bearer_a);
   (env_at (t + 1) (decimal k),
    POST_bucketlist_complete
      (Build_CompleteItemRequest ("item_" ++ decimal k) "P1" None) bearer_b)].

Definition script_many (n : nat) : list (Env * request) :=
  script_paired ++ flat_map create_and_complete (seq 0 n).
Definition db_after (n : nat) : db := play (script_many n) empty_db.

End Demo.

(** ** Vocabulary of the properties *)

(** The writes a request can make. *)
Inductive effect (env : Env) (d : db) : request -> db -> Prop :=
| eff_none req : effect env d req d
| eff_session req s : effect env d req (set_user_sessions (fun l => l ++ [s]) d)
| eff_logout auth tok :
    effect env d (POST_auth_logout auth)
      (set_user_sessions (Coll.delete_first (has_token tok)) d)
| eff_register r u s :
    UserDoc.user_id u = ("user_" ++ Py.slice_to 12 (uuid_1 env))%string ->
    UserDoc.partner_id u = None ->
    find (has_friend_code (UserDoc.friend_code u)) (users d) = None ->
    effect env d (POST_auth_register r)
      (set_user_sessions (fun l => l ++ [s]) (set_users (fun l => l ++ [u]) d))
| eff_exchange sid u s :
    UserDoc.user_id u = ("user_" ++ Py.slice_to 12 (uuid_1 env))%string ->
    UserDoc.partner_id u = None ->
    find (has_friend_code (UserDoc.friend_code u)) (users d) = None ->
    effect env d (POST_auth_session sid)
      (set_user_sessions (fun l => l ++ [s]) (set_users (fun l => l ++ [u]) d))
| eff_connect r auth a f :
    find (has_user_id (UserDoc.user_id a)) (users d) = Some a ->
    Py.truthy (UserDoc.partner_id a) = false ->
    find (has_friend_code (cfr_friend_code r)) (users d) = Some f ->
    UserDoc.user_id f <> UserDoc.user_id a ->
    Py.truthy (UserDoc.partner_id f) = false ->
    effect env d (POST_connect_friend r auth)
      (set_users
         (fun l =>
            Coll.update_first (has_user_id (UserDoc.user_id f))
              (set_partner_id (UserDoc.user_id a))
              (Coll.update_first (has_user_id (UserDoc.user_id a))
                 (set_partner_id (UserDoc.user_id f)) l)) d)
| eff_create item auth a p :
    find (has_user_id (UserDoc.user_id a)) (users d) = Some a ->
    UserDoc.partner_id a = Some p -> p <> EmptyString ->
    effect env d (POST_bucketlist item auth)
      (set_bucket_items
         (fun l => l ++ [BucketItem.mk ("item_" ++ Py.slice_to 12 (uuid_1 env))%string
                           (bic_title item) (bic_category item) (UserDoc.user_id a)
                           (now env) false [UserDoc.user_id a; p]]) d)
| eff_delete item_id auth q :
    effect env d (DELETE_bucketlist item_id auth)
      (set_bucket_items (Coll.delete_first q) d)
| eff_complete r auth uid b c :
    find (completable (cir_item_id r) uid) (bucket_items d) = Some b ->
    CompletedItem.item_id c = cir_item_id r ->
    effect env d (POST_bucketlist_complete r auth)
      (set_completed_items (fun l => l ++ [c])
         (set_bucket_items
            (Coll.update_first (has_item_id (cir_item_id r)) set_completed) d)).

(** The two documents that [connect_friend] rewrites. *)
Definition pair_up (a f : UserDoc.t) (u : UserDoc.t) : UserDoc.t :=
  if (UserDoc.user_id u =? UserDoc.user_id f)%string
  then set_partner_id (UserDoc.user_id a) u
  else if (UserDoc.user_id u =? UserDoc.user_id a)%string
       then set_partner_id (UserDoc.user_id f) u
       else u.

(** The store after the two [update_one] calls of [connect_friend]. *)
Definition linked (uid fid : string) (d : db) : db :=
  set_users (Coll.update_first (has_user_id fid) (set_partner_id uid))
    (set_users (Coll.update_first (has_user_id uid) (set_partner_id fid)) d).

(** The token that [get_current_user] and [logout] look up for a header. *)
Definition bearer_token (authorization : option string) : string :=
  Py.replace "Bearer " EmptyString
    (match authorization with Some a => a | None => EmptyString end).

(** The specification's reading of the header: a leading ["Bearer "] is
    stripped, the rest is the token. *)
Definition strip_bearer_prefix (h : string) : string :=
  if String.prefix "Bearer " h
  then String.substring 7 (String.length h - 7) h
  else h.

(** [Authenticate] as the specification words it, to compare with
    [get_current_user]. *)
Definition Authenticate_spec (env : Env) (authorization : option string) : handler User.t :=
  fun d =>
    match authorization with
    | None => Raise NotAuthenticated d
    | Some h =>
        if (h =? EmptyString)%string then Raise NotAuthenticated d else
        match find (has_token (strip_bearer_prefix h)) (user_sessions d) with
        | None => Raise InvalidSession d
        | Some s =>
            if now env >? Session.expires_at s then Raise SessionExpired d else
            match find (has_user_id (Session.user_id s)) (users d) with
            | None => Raise UserNotFound d
            | Some u => Return (User.of_doc u) d
            end
        end
    end.

(** What a request may do to the bucket items: flip [completed] flags,
    append one item, or remove one item.  The [shared_with] of an item that
    stays is never rewritten. *)
Inductive ownership_kept (l : list BucketItem.t) : list BucketItem.t -> Prop :=
| kept_in_place l' :
    map BucketItem.item_id l' = map BucketItem.item_id l ->
    map BucketItem.shared_with l' = map BucketItem.shared_with l ->
    ownership_kept l l'
| kept_append b : ownership_kept l (l ++ [b])
| kept_delete l1 x l2 : l = l1 ++ x :: l2 -> ownership_kept l (l1 ++ l2).

(** Newest first. *)
Definition newer (x y : CompletedItem.t) : Prop :=
  CompletedItem.completed_at y <= CompletedItem.completed_at x.

(** ** Vocabulary of the further properties *)




(** The character [c] does not occur in [s]. *)
Fixpoint free_of (c : ascii) (s : string) : bool :=
  match s with
  | EmptyString => true
  | String x rest => negb (Ascii.eqb x c) && free_of c rest
  end.

(** Two versions of one account: every field but [partner_id] agrees. *)
Definition same_account (u u' : UserDoc.t) : Prop :=
  UserDoc.user_id u' = UserDoc.user_id u /\
  UserDoc.email u' = UserDoc.email u /\
  UserDoc.name u' = UserDoc.name u /\
  UserDoc.password_hash u' = UserDoc.password_hash u /\
  UserDoc.picture u' = UserDoc.picture u /\
  UserDoc.friend_code u' = UserDoc.friend_code u /\
  UserDoc.created_at u' = UserDoc.created_at u.

(** Every session names a stored user. *)
Definition sessions_owned (d : db) : Prop :=
  forall s, In s (user_sessions d) ->
    exists u, In u (users d) /\ UserDoc.user_id u = Session.user_id s.

(** Every bucket item is shared by its creator and one other stored user,
    partners of each other. *)
Definition items_of_pairs (d : db) : Prop :=
  forall b, In b (bucket_items d) ->
    exists u v,
      In u (users d) /\ In v (users d) /\
      BucketItem.created_by b = UserDoc.user_id u /\
      BucketItem.shared_with b = [UserDoc.user_id u; UserDoc.user_id v] /\
      UserDoc.partner_id u = Some (UserDoc.user_id v) /\
      UserDoc.partner_id v = Some (UserDoc.user_id u).

(** Every completion record that still has its bucket item copies the
    item's title and category and was made by one of the two sharers. *)
Definition records_match_items (d : db) : Prop :=
  forall c b, In c (completed_items d) -> In b (bucket_items d) ->
    BucketItem.item_id b = CompletedItem.item_id c ->
    CompletedItem.title c = BucketItem.title b /\
    CompletedItem.category c = BucketItem.category b /\
    In (CompletedItem.completed_by c) (BucketItem.shared_with b).

(** The requests that only read. *)
Definition read_only (req : request) : bool :=
  match req with
  | GET_auth_me _ | GET_bucketlist _ | GET_completed _ => true
  | _ => false
  end.

(** The header of a request served behind [get_current_user]. *)
Definition authorization_of (req : request) : option (option string) :=
  match req with
  | POST_auth_register _ | POST_auth_login _ | POST_auth_session _ => None
  | GET_auth_me a | POST_auth_logout a | POST_connect_friend _ a | GET_bucketlist a
  | POST_bucketlist _ a | DELETE_bucketlist _ a | POST_bucketlist_complete _ a
  | GET_completed a => Some a
  end.

(** The accounts of [l] are all still in [l'], in place, possibly followed
    by new ones. *)
Definition kept_accounts (l l' : list UserDoc.t) : Prop :=
  exists kept extra, l' = kept ++ extra /\ Forall2 same_account l kept.

(** What the client sees of an outcome: the value or the exception. *)
Definition answer {A} (o : outcome A) : option (A + exn) :=
  match o with
  | Return a _ => Some (inl a)
  | Raise e _ => Some (inr e)
  | Pending => None
  end.

(** The filter of [get_bucket_list]. *)
Definition active_for (uid : string) (b : BucketItem.t) : bool :=
  shared_with_has uid b && negb (BucketItem.completed b).

Section MoreVocabulary.
Context {pwd_context : CryptContext}.

(** The document [register] inserts once the friend-code loop has returned
    [code], and the session documents the three sign-in handlers insert. *)
Definition registered_doc (env : Env) (r : RegisterRequest) (code : string) : UserDoc.t :=
  UserDoc.mk ("user_" ++ Py.slice_to 12 (uuid_1 env))%string (Py.lower (rr_email r))
    (rr_name r) (Some (pwd_hash (salt env) (rr_password r))) None code None (now env).

Definition provisioned_doc (env : Env) (code : string) : UserDoc.t :=
  let user_data := json (oauth env) in
  UserDoc.mk ("user_" ++ Py.slice_to 12 (uuid_1 env))%string (sd_email user_data)
    (sd_name user_data) None (sd_picture user_data) code None (now env).

Definition session_doc (env : Env) (uid tok : string) : Session.t :=
  Session.mk uid tok (now env + seven_days) (now env).


End MoreVocabulary.

Section Changes.
Context {pwd_context : CryptContext}.

(** What serving one request writes, with the documents written. *)
Inductive change (env : Env) (d : db) : request -> db -> Prop :=
| ch_none req : change env d req d
| ch_register r c :
    find (has_email (Py.lower (rr_email r))) (users d) = None ->
    find (has_friend_code c) (users d) = None ->
    change env d (POST_auth_register r)
      (set_user_sessions
         (fun l => l ++ [session_doc env (UserDoc.user_id (registered_doc env r c))
                           ("session_" ++ uuid_2 env)%string])
         (set_users (fun l => l ++ [registered_doc env r c]) d))
| ch_provision sid c :
    find (has_email (sd_email (json (oauth env)))) (users d) = None ->
    find (has_friend_code c) (users d) = None ->
    change env d (POST_auth_session sid)
      (set_user_sessions
         (fun l => l ++ [session_doc env (UserDoc.user_id (provisioned_doc env c))
                           (sd_session_token (json (oauth env)))])
         (set_users (fun l => l ++ [provisioned_doc env c]) d))
| ch_session req u tok :
    In u (users d) ->
    change env d req
      (set_user_sessions (fun l => l ++ [session_doc env (UserDoc.user_id u) tok]) d)
| ch_logout req tok :
    change env d req (set_user_sessions (Coll.delete_first (has_token tok)) d)
| ch_connect req a f code :
    find (has_user_id (UserDoc.user_id a)) (users d) = Some a ->
    Py.truthy (UserDoc.partner_id a) = false ->
    find (has_friend_code code) (users d) = Some f ->
    UserDoc.user_id f <> UserDoc.user_id a ->
    Py.truthy (UserDoc.partner_id f) = false ->
    change env d req (linked (UserDoc.user_id a) (UserDoc.user_id f) d)
| ch_create item auth a p :
    find (has_user_id (UserDoc.user_id a)) (users d) = Some a ->
    UserDoc.partner_id a = Some p -> p <> EmptyString ->
    change env d (POST_bucketlist item auth)
      (set_bucket_items
         (fun l => l ++ [BucketItem.mk ("item_" ++ Py.slice_to 12 (uuid_1 env))%string
                           (bic_title item) (bic_category item) (UserDoc.user_id a)
                           (now env) false [UserDoc.user_id a; p]]) d)
| ch_delete req q :
    change env d req (set_bucket_items (Coll.delete_first q) d)
| ch_complete req r a b :
    find (has_user_id (UserDoc.user_id a)) (users d) = Some a ->
    find (completable (cir_item_id r) (UserDoc.user_id a)) (bucket_items d) = Some b ->
    change env d req
      (set_completed_items
         (fun l => l ++ [CompletedItem.mk
                           ("completed_" ++ Py.slice_to 12 (uuid_1 env))%string
                           (cir_item_id r) (BucketItem.title b) (BucketItem.category b)
                           (cir_photo_base64 r) (cir_notes r) (now env)
                           (UserDoc.user_id a)])
         (set_bucket_items
            (Coll.update_first (has_item_id (cir_item_id r)) set_completed) d)).

End Changes.

(** ** More of the concrete session *)

Module Demo2.
Import Demo.
#[local] Existing Instance plain.


(** The documents of A and B once paired. *)
Definition doc_a_paired : UserDoc.t := set_partner_id "user_bbbbbbbbbbbb" doc_a.
Definition doc_b_paired : UserDoc.t := set_partner_id "user_aaaaaaaaaaaa" doc_b.

(** A user outside the pair. *)
Definition stranger : User.t :=
  User.mk "user_cccccccccccc" "c@x.com" "C" None "CCCCC" None 2500.

Definition register_a : RegisterRequest := Build_RegisterRequest "A@x.com" "pw" "A".
Definition login_a : LoginRequest := Build_LoginRequest "a@X.com" "pw".

Definition session_a : LoginResponse :=
  {| login_session_token := "session_a1"; login_user := user_a |}.

(** A logs in again after registering. *)
Definition env_login : Env :=
  {| now := 3000; uuid_1 := "a2"; uuid_2 := EmptyString; friend_codes := [];
     salt := EmptyString; oauth := no_oauth |}.
Definition db_login : db := play (script_reg_a ++ [(env_login, POST_auth_login login_a)]) empty_db.

(** A second OAuth exchange for the same email, with another token. *)
Definition env_oauth_again : Env :=
  {| now := 9000; uuid_1 := "dddddddddddd0000"; uuid_2 := EmptyString;
     friend_codes := ["DDDDD"]; salt := EmptyString;
     oauth := {| status_code := 200;
                 json := {| sd_id := "g1"; sd_email := "A@x.com"; sd_name := "A";
                            sd_picture := None; sd_session_token := "ext_tok2" |} |} |}.

(** The item A created, before and after its completion, and the record. *)
Definition item_paris : BucketItem.t :=
  BucketItem.mk "item_111111111111" "Visit Paris" "Travel" "user_aaaaaaaaaaaa" 4000
    false ["user_aaaaaaaaaaaa"; "user_bbbbbbbbbbbb"].
Definition record_paris : CompletedItem.t :=
  CompletedItem.mk "completed_222222222222" "item_111111111111" "Visit Paris" "Travel"
    "P1" None 5000 "user_aaaaaaaaaaaa".

(** After the completion, B creates a second item. *)
Definition item_sail : BucketItem.t :=
  BucketItem.mk "item_333333333333" "Sail" "Travel" "user_bbbbbbbbbbbb" 5500 false
    ["user_bbbbbbbbbbbb"; "user_aaaaaaaaaaaa"].
Definition db_two : db :=
  play (script_done ++
        [(env_at 5500 "333333333333",
          POST_bucketlist (Build_BucketItemCreate "Sail" "Travel") bearer_b)]) empty_db.

End Demo2.

(** * Properties *)

(** ** Collections *)

Module CollFacts.

Section Unkeyed.
Context {D : Type}.

Lemma delete_first_incl (q : D -> bool) (l : list D) x :
  In x (Coll.delete_first q l) -> In x l.
Proof.
  induction l as [|z l IH]; simpl; [tauto|].
  destruct (q z); simpl; intuition.
Qed.

(** [delete_one] removes one document, the first match, or nothing. *)
Lemma delete_first_split (q : D -> bool) (l : list D) :
  (find q l = None /\ Coll.delete_first q l = l) \/
  (exists l1 x l2, l = l1 ++ x :: l2 /\ find q l = Some x /\
                   Coll.delete_first q l = l1 ++ l2).
Proof.
  induction l as [|z l IH]; simpl; [now left|].
  destruct (q z) eqn:E.
  - right. exists [], z, l. auto.
  - destruct IH as [[Hf Hd]|(l1 & x & l2 & Hl & Hf & Hd)].
    + left. now rewrite Hd.
    + right. exists (z :: l1), x, l2. simpl. now rewrite Hd, <- Hl.
Qed.

(** A rewrite that keeps a field keeps the list of that field. *)
Lemma update_first_map {K} (h : D -> K) (q : D -> bool) (g : D -> D) (l : list D) :
  (forall x, h (g x) = h x) -> map h (Coll.update_first q g l) = map h l.
Proof.
  intros Hg. induction l as [|z l IH]; simpl; [reflexivity|].
  destruct (q z); simpl; [now rewrite Hg | now rewrite IH].
Qed.


End Unkeyed.

Section Keyed.
Context {D : Type} (key : D -> string).

Lemma key_injective (l : list D) x y :
  NoDup (map key l) -> In x l -> In y l -> key x = key y -> x = y.
Proof.
  induction l as [|z l IH]; simpl; [tauto|].
  intros Hnd [Hx|Hx] [Hy|Hy] Hk; inversion Hnd as [|? ? Hnotin Hnd']; subst.
  - reflexivity.
  - exfalso. apply Hnotin. rewrite Hk. now apply in_map.
  - exfalso. apply Hnotin. rewrite <- Hk. now apply in_map.
  - now apply IH.
Qed.

(** With unique keys, rewriting the first match is rewriting every match. *)
Lemma update_first_unique (k : string) (g : D -> D) (l : list D) :
  NoDup (map key l) ->
  Coll.update_first (fun x => (key x =? k)%string) g l
  = map (fun x => if (key x =? k)%string then g x else x) l.
Proof.
  induction l as [|z l IH]; simpl; [reflexivity|].
  intros Hnd. inversion Hnd as [|? ? Hnotin Hnd']; subst.
  destruct (key z =? k)%string eqn:E.
  - f_equal. apply String.eqb_eq in E. rewrite <- (map_id l) at 1.
    apply map_ext_in. intros y Hy.
    destruct (key y =? k)%string eqn:E'; [|reflexivity].
    apply String.eqb_eq in E'. exfalso. apply Hnotin.
    rewrite E, <- E'. now apply in_map.
  - f_equal. now apply IH.
Qed.

Lemma update_first_keys (q : D -> bool) (g : D -> D) (l : list D) :
  (forall x, key (g x) = key x) ->
  map key (Coll.update_first q g l) = map key l.
Proof.
  intros Hg. induction l as [|z l IH]; simpl; [reflexivity|].
  destruct (q z); simpl; [now rewrite Hg | now rewrite IH].
Qed.

Lemma delete_first_nodup (q : D -> bool) (l : list D) :
  NoDup (map key l) -> NoDup (map key (Coll.delete_first q l)).
Proof.
  induction l as [|z l IH]; simpl; [trivial|].
  intros Hnd. inversion Hnd as [|? ? Hnotin Hnd']; subst.
  destruct (q z); simpl; [assumption|].
  constructor; [|now apply IH].
  intros Hin. apply Hnotin. apply in_map_iff in Hin as (x & Hx & Hin).
  apply in_map_iff. exists x. split; [assumption|].
  now apply delete_first_incl in Hin.
Qed.

Lemma nodup_snoc (l : list D) (x : D) :
  NoDup (map key l) -> ~ In (key x) (map key l) -> NoDup (map key (l ++ [x])).
Proof.
  intros Hnd Hx. rewrite map_app. simpl.
  apply NoDup_app; [assumption | repeat constructor; simpl; tauto |].
  intros a Ha [Hb|[]]. subst. contradiction.
Qed.

Lemma find_key_none (k : string) (l : list D) :
  find (fun x => (key x =? k)%string) l = None -> ~ In k (map key l).
Proof.
  intros Hf Hin. apply in_map_iff in Hin as (x & Hx & Hin).
  apply (find_none _ _ Hf) in Hin. simpl in Hin.
  apply String.eqb_neq in Hin. contradiction.
Qed.

Lemma find_key_some (k : string) (l : list D) x :
  find (fun x => (key x =? k)%string) l = Some x -> In x l /\ key x = k.
Proof.
  intros Hf. apply find_some in Hf as [Hin Hk]. split; [assumption|].
  now apply String.eqb_eq in Hk.
Qed.

(** With unique keys, [find_one] by key gives back any stored document
    looked up by its own key. *)
Lemma find_key_in (l : list D) x :
  NoDup (map key l) -> In x l -> find (fun y => (key y =? key x)%string) l = Some x.
Proof.
  intros Hnd Hin.
  destruct (find (fun y => (key y =? key x)%string) l) as [y|] eqn:E.
  - apply find_key_some in E as [Hy Hk]. f_equal.
    now apply (key_injective l).
  - apply (find_none _ _ E) in Hin. simpl in Hin.
    now rewrite String.eqb_refl in Hin.
Qed.

End Keyed.
End CollFacts.

(** ** What one request does to the store *)

Section Effects.
Context {pwd_context : CryptContext}.

Ltac run_handler :=
  unfold bind, ret, raise, pending, find_one, find_all, modify, insert_user,
    insert_session, insert_bucket_item, insert_completed_item, update_partner_id,
    delete_one_bucket_item; simpl.

(** [get_current_user], branch by branch. *)
Lemma get_current_user_unfold env authorization d :
  get_current_user env authorization d =
  match authorization with
  | None => Raise NotAuthenticated d
  | Some a =>
      if (a =? EmptyString)%string then Raise NotAuthenticated d else
      match find (has_token (Py.replace "Bearer " EmptyString a)) (user_sessions d) with
      | None => Raise InvalidSession d
      | Some s =>
          if Session.expires_at s <? now env then Raise SessionExpired d else
          match find (has_user_id (Session.user_id s)) (users d) with
          | None => Raise UserNotFound d
          | Some u => Return (User.of_doc u) d
          end
      end
  end.
Proof.
  unfold get_current_user. destruct authorization as [a|]; simpl; [|reflexivity].
  destruct (a =? EmptyString)%string; simpl; [reflexivity|]. run_handler.
  destruct (find _ (user_sessions d)) as [s|]; [|reflexivity].
  destruct (Session.expires_at s <? now env); [reflexivity|].
  now destruct (find _ (users d)).
Qed.

(** Authentication reads the store and leaves it as it is; when it returns,
    the user is the stored document that [find_one] gives for its id. *)
Lemma get_current_user_cases env authorization d :
  (exists e, get_current_user env authorization d = Raise e d) \/
  (exists a, find (has_user_id (UserDoc.user_id a)) (users d) = Some a /\
             get_current_user env authorization d = Return (User.of_doc a) d).
Proof.
  rewrite get_current_user_unfold.
  destruct authorization as [a|]; [|left; eauto].
  destruct (a =? EmptyString)%string; [left; eauto|].
  destruct (find _ (user_sessions d)) as [s|]; [|left; eauto].
  destruct (Session.expires_at s <? now env); [left; eauto|].
  destruct (find _ (users d)) as [u|] eqn:E; [|left; eauto].
  right. exists u. split; [|reflexivity].
  pose proof (CollFacts.find_key_some UserDoc.user_id _ _ _ E) as [_ Hk].
  unfold has_user_id in *. now rewrite Hk.
Qed.

(** The friend-code loop returns a code nobody holds, or is still drawing. *)
Lemma unique_friend_code_cases draws d :
  unique_friend_code draws d = Pending \/
  (exists c, unique_friend_code draws d = Return c d /\ In c draws /\
             find (has_friend_code c) (users d) = None).
Proof.
  induction draws as [|c draws IH]; simpl; [now left|]. run_handler.
  destruct (find (has_friend_code c) (users d)) eqn:E.
  - destruct IH as [IH|(c' & IH & Hin & Hf)]; [now left|].
    right. exists c'. auto.
  - right. exists c. auto.
Qed.


Lemma db_eta d : mkdb (users d) (user_sessions d) (bucket_items d) (completed_items d) = d.
Proof. now destruct d. Qed.

Lemma serve_effect env req d : effect env d req (serve env req d).
Proof.
  unfold serve.
  destruct req as [r|r|sid|auth|auth|r auth|auth|item auth|iid auth|r auth|auth]; simpl.
  - (* register *)
    unfold register. run_handler.
    destruct (find _ (users d)); simpl; [constructor|].
    destruct (unique_friend_code_cases (friend_codes env) d) as [E|(c & E & _ & Hc)];
      rewrite E; simpl; [constructor|].
    apply (eff_register env d r
             (UserDoc.mk _ _ _ _ _ c None _) (Session.mk _ _ _ _)); auto.
  - (* login *)
    unfold login. run_handler.
    destruct (find _ (users d)) as [u|]; simpl; [|constructor].
    destruct (UserDoc.password_hash u); simpl; [|constructor].
    destruct (pwd_verify _ _); simpl; [|constructor].
    apply eff_session.
  - (* OAuth exchange *)
    unfold create_session.
    destruct (Py.truthy sid); simpl; [|constructor].
    destruct (status_code (oauth env) =? 200); simpl; [|constructor]. run_handler.
    destruct (find _ (users d)); simpl; [apply eff_session|].
    destruct (unique_friend_code_cases (friend_codes env) d) as [E|(c & E & _ & Hc)];
      rewrite E; simpl; [constructor|].
    apply (eff_exchange env d sid
             (UserDoc.mk _ _ _ _ _ c None _) (Session.mk _ _ _ _)); auto.
  - destruct (get_current_user_cases env auth d) as [[e E]|(a & Ha & E)];
      unfold bind; rewrite E; simpl; constructor.
  - (* logout *)
    destruct (get_current_user_cases env auth d) as [[e E]|(a & Ha & E)];
      unfold bind; rewrite E; simpl; [constructor|].
    unfold logout. run_handler.
    destruct (Py.truthy auth); simpl; [|constructor]. apply eff_logout.
  - (* connect *)
    destruct (get_current_user_cases env auth d) as [[e E]|(a & Ha & E)];
      unfold bind; rewrite E; simpl; [constructor|].
    unfold connect_friend. simpl.
    destruct (Py.truthy (UserDoc.partner_id a)) eqn:Ea; simpl; [constructor|].
    run_handler.
    destruct (find (has_friend_code _) (users d)) as [f|] eqn:Ef; simpl; [|constructor].
    destruct (UserDoc.user_id f =? UserDoc.user_id a)%string eqn:Eid; simpl;
      [constructor|].
    destruct (Py.truthy (UserDoc.partner_id f)) eqn:Efp; simpl; [constructor|].
    apply String.eqb_neq in Eid.
    apply (eff_connect env d r auth a f); auto.
  - destruct (get_current_user_cases env auth d) as [[e E]|(a & Ha & E)];
      unfold bind; rewrite E; simpl; constructor.
  - (* create *)
    destruct (get_current_user_cases env auth d) as [[e E]|(a & Ha & E)];
      unfold bind; rewrite E; simpl; [constructor|].
    unfold create_bucket_item. run_handler. rewrite Ha. simpl.
    destruct (UserDoc.partner_id a) as [p|] eqn:Ep; simpl; [|constructor].
    destruct (p =? EmptyString)%string eqn:Ee; simpl; [constructor|].
    apply String.eqb_neq in Ee.
    apply (eff_create env d item auth a p); auto.
  - (* delete *)
    destruct (get_current_user_cases env auth d) as [[e E]|(a & Ha & E)];
      unfold bind; rewrite E; simpl; [constructor|].
    unfold delete_bucket_item. run_handler.
    destruct (Coll.deleted_count _ _ =? 0); simpl; apply eff_delete.
  - (* complete *)
    destruct (get_current_user_cases env auth d) as [[e E]|(a & Ha & E)];
      unfold bind; rewrite E; simpl; [constructor|].
    unfold complete_bucket_item. run_handler.
    destruct (find _ (bucket_items d)) as [b|] eqn:Eb; simpl; [|constructor].
    apply (eff_complete env d r auth (UserDoc.user_id a) b
             (CompletedItem.mk _ _ _ _ _ _ _ _)); auto.
  - (* list completed *)
    destruct (get_current_user_cases env auth d) as [[e E]|(a & Ha & E)];
      unfold bind; rewrite E; simpl; [constructor|].
    unfold get_completed_items. run_handler. rewrite Ha. simpl.
    destruct (UserDoc.partner_id a) as [p|]; simpl; [|constructor].
    destruct (p =? EmptyString)%string; simpl; constructor.
Qed.

End Effects.

(** ** Well-formedness is kept by every request *)

Section Invariants.
Context {pwd_context : CryptContext}.

Lemma empty_well_formed : well_formed empty_db.
Proof.
  constructor; simpl.
  - constructor.
  - tauto.
  - constructor.
  - intros u p [].
  - constructor.
  - constructor.
  - tauto.
Qed.

(** On a store that satisfies the pairing invariant, a falsy [partner_id]
    is an absent one. *)
Lemma falsy_partner_unset l u :
  mutual_pairs_in l -> In u l -> Py.truthy (UserDoc.partner_id u) = false ->
  UserDoc.partner_id u = None.
Proof.
  intros Hm Hin Hf. destruct (UserDoc.partner_id u) as [p|] eqn:E; [|reflexivity].
  destruct (Hm u p Hin E) as [Hp _]. simpl in Hf.
  apply negb_false_iff, String.eqb_eq in Hf. contradiction.
Qed.

Lemma connect_writes_as_map l a f :
  NoDup (map UserDoc.user_id l) ->
  Coll.update_first (has_user_id (UserDoc.user_id f)) (set_partner_id (UserDoc.user_id a))
    (Coll.update_first (has_user_id (UserDoc.user_id a))
       (set_partner_id (UserDoc.user_id f)) l)
  = map (pair_up a f) l.
Proof.
  intros Hnd. unfold has_user_id.
  rewrite (CollFacts.update_first_unique UserDoc.user_id (UserDoc.user_id a)) by assumption.
  rewrite (CollFacts.update_first_unique UserDoc.user_id (UserDoc.user_id f)).
  - rewrite map_map. apply map_ext. intros u. unfold pair_up.
    destruct (UserDoc.user_id u =? UserDoc.user_id a)%string; simpl; reflexivity.
  - rewrite map_map.
    erewrite map_ext; [exact Hnd|].
    intros u. simpl. now destruct (UserDoc.user_id u =? UserDoc.user_id a)%string.
Qed.

Lemma pair_up_user_id a f u : UserDoc.user_id (pair_up a f u) = UserDoc.user_id u.
Proof.
  unfold pair_up.
  destruct (UserDoc.user_id u =? UserDoc.user_id f)%string; [reflexivity|].
  now destruct (UserDoc.user_id u =? UserDoc.user_id a)%string.
Qed.

Lemma pair_up_friend_code a f u :
  UserDoc.friend_code (pair_up a f u) = UserDoc.friend_code u.
Proof.
  unfold pair_up.
  destruct (UserDoc.user_id u =? UserDoc.user_id f)%string; [reflexivity|].
  now destruct (UserDoc.user_id u =? UserDoc.user_id a)%string.
Qed.

Lemma pair_up_mutual l a f :
  NoDup (map UserDoc.user_id l) -> mutual_pairs_in l ->
  In a l -> In f l -> UserDoc.user_id a <> EmptyString -> UserDoc.user_id f <> EmptyString ->
  UserDoc.partner_id a = None -> UserDoc.partner_id f = None ->
  UserDoc.user_id f <> UserDoc.user_id a ->
  mutual_pairs_in (map (pair_up a f) l).
Proof.
  intros Hnd Hm Ha Hf Hae Hfe Hpa Hpf Hne u' p Hin Hp.
  apply in_map_iff in Hin as (u & <- & Hin).
  rewrite pair_up_user_id. unfold pair_up in Hp.
  destruct (UserDoc.user_id u =? UserDoc.user_id f)%string eqn:E1.
  - (* u is the friend *)
    apply String.eqb_eq in E1. simpl in Hp. injection Hp as <-.
    rewrite E1. repeat split; auto.
    exists (pair_up a f a). split; [now apply in_map|].
    unfold pair_up. rewrite (proj2 (String.eqb_neq _ _)) by auto.
    rewrite String.eqb_refl. simpl. auto.
  - destruct (UserDoc.user_id u =? UserDoc.user_id a)%string eqn:E2.
    + (* u is the requester *)
      apply String.eqb_eq in E2. simpl in Hp. injection Hp as <-.
      rewrite E2. repeat split; auto.
      exists (pair_up a f f). split; [now apply in_map|].
      unfold pair_up. rewrite String.eqb_refl. simpl. auto.
    + (* u is untouched, and so is its partner *)
      destruct (Hm u p Hin Hp) as (Hpe & Hpu & v & Hv & Hvid & Hvp).
      repeat split; auto.
      exists (pair_up a f v). split; [now apply in_map|].
      assert (Hvf : (UserDoc.user_id v =? UserDoc.user_id f)%string = false).
      { apply String.eqb_neq. intros Heq.
        assert (v = f) by (eapply (CollFacts.key_injective UserDoc.user_id); eauto).
        subst v. congruence. }
      assert (Hva : (UserDoc.user_id v =? UserDoc.user_id a)%string = false).
      { apply String.eqb_neq. intros Heq.
        assert (v = a) by (eapply (CollFacts.key_injective UserDoc.user_id); eauto).
        subst v. congruence. }
      unfold pair_up. rewrite Hvf, Hva. auto.
Qed.

Lemma completable_found iid uid l b :
  find (completable iid uid) l = Some b ->
  In b l /\ BucketItem.item_id b = iid /\ shared_with_has uid b = true /\
  BucketItem.completed b = false.
Proof.
  intros Hf. apply find_some in Hf as [Hin Hq]. unfold completable in Hq.
  apply andb_true_iff in Hq as [Hq Hc]. apply andb_true_iff in Hq as [Hi Hs].
  apply String.eqb_eq in Hi. apply negb_true_iff in Hc. auto.
Qed.

Lemma set_completed_item_id b : BucketItem.item_id (set_completed b) = BucketItem.item_id b.
Proof. reflexivity. Qed.

(** Appending a freshly provisioned, unpaired user keeps the user invariants. *)
Lemma provision_users l u :
  NoDup (map UserDoc.user_id l) ->
  (forall x, In x l -> UserDoc.user_id x <> EmptyString) ->
  NoDup (map UserDoc.friend_code l) -> mutual_pairs_in l ->
  ~ In (UserDoc.user_id u) (map UserDoc.user_id l) ->
  UserDoc.user_id u <> EmptyString ->
  UserDoc.partner_id u = None ->
  find (has_friend_code (UserDoc.friend_code u)) l = None ->
  NoDup (map UserDoc.user_id (l ++ [u])) /\
  (forall x, In x (l ++ [u]) -> UserDoc.user_id x <> EmptyString) /\
  NoDup (map UserDoc.friend_code (l ++ [u])) /\ mutual_pairs_in (l ++ [u]).
Proof.
  intros Hid Hne Hfc Hm Hfresh Hue Hp Hcode. split; [|split; [|split]].
  - now apply CollFacts.nodup_snoc.
  - intros x Hx. apply in_app_or in Hx as [Hx|[<-|[]]]; auto.
  - apply CollFacts.nodup_snoc; [assumption|].
    now apply (CollFacts.find_key_none UserDoc.friend_code).
  - intros x p Hx Hxp.
    apply in_app_or in Hx as [Hx|[<-|[]]]; [|congruence].
    destruct (Hm x p Hx Hxp) as (H1 & H2 & v & Hv & Hvid & Hvp).
    repeat split; auto.
    exists v. split; [apply in_or_app; now left | auto].
Qed.

Lemma effect_well_formed env req d d' :
  well_formed d -> uuid_fresh env req d -> effect env d req d' -> well_formed d'.
Proof.
  intros [Hid Hne Hfc Hm Hit Hco Hfl] Hfresh Heff. unfold mutual_pairs in Hm.
  inversion Heff; subst; clear Heff; simpl in *.
  - now constructor.
  - now constructor.
  - now constructor.
  - (* register *)
    destruct (provision_users (users d) u) as (A & B & C & E); auto.
    { now rewrite H. } { rewrite H. discriminate. }
    now constructor.
  - (* OAuth provisioning *)
    destruct (provision_users (users d) u) as (A & B & C & E); auto.
    { now rewrite H. } { rewrite H. discriminate. }
    now constructor.
  - (* connect *)
    pose proof (find_some _ _ H) as [Ha _].
    pose proof (find_some _ _ H1) as [Hf _].
    constructor; unfold mutual_pairs; simpl; eauto;
      rewrite connect_writes_as_map by assumption.
    + rewrite map_map. erewrite map_ext; [exact Hid|]. apply pair_up_user_id.
    + intros u Hu. apply in_map_iff in Hu as (x & <- & Hx).
      rewrite pair_up_user_id. auto.
    + rewrite map_map. erewrite map_ext; [exact Hfc|]. apply pair_up_friend_code.
    + apply pair_up_mutual; auto; now apply (falsy_partner_unset (users d)).
  - (* create *)
    destruct Hfresh as [Hf1 Hf2].
    constructor; unfold mutual_pairs; simpl; auto.
    + now apply CollFacts.nodup_snoc.
    + intros c b Hc Hb Heq. apply in_app_or in Hb as [Hb|[<-|[]]]; [eauto|].
      simpl in Heq. exfalso. apply Hf2. rewrite Heq. now apply in_map.
  - (* delete *)
    constructor; unfold mutual_pairs; simpl; auto.
    + now apply CollFacts.delete_first_nodup.
    + intros c b Hc Hb Heq. apply CollFacts.delete_first_incl in Hb.
      now apply (Hfl c b).
  - (* complete *)
    apply completable_found in H as (Hb & Hbid & _ & Hbc).
    constructor; unfold mutual_pairs; simpl; auto.
    + rewrite (CollFacts.update_first_keys BucketItem.item_id); auto.
    + apply CollFacts.nodup_snoc; [assumption|].
      intros Hin. apply in_map_iff in Hin as (c0 & Hc0 & Hin).
      rewrite (Hfl c0 b) in Hbc; [discriminate|assumption|assumption|congruence].
    + intros c0 b0 Hc0 Hb0 Heq. unfold has_item_id in Hb0.
      rewrite (CollFacts.update_first_unique BucketItem.item_id) in Hb0 by assumption.
      apply in_map_iff in Hb0 as (x & <- & Hx).
      destruct (BucketItem.item_id x =? cir_item_id r)%string eqn:E; [reflexivity|].
      apply in_app_or in Hc0 as [Hc0|[<-|[]]]; [eauto|].
      apply String.eqb_neq in E. congruence.
Qed.

Lemma serve_well_formed env req d :
  well_formed d -> uuid_fresh env req d -> well_formed (serve env req d).
Proof. intros Hwf Hf. eapply effect_well_formed; eauto. apply serve_effect. Qed.

Lemma run_well_formed d d' : well_formed d -> run d d' -> well_formed d'.
Proof. intros Hwf Hr. induction Hr; [assumption|]. now apply serve_well_formed. Qed.

Lemma reachable_well_formed d : reachable d -> well_formed d.
Proof. apply run_well_formed, empty_well_formed. Qed.

End Invariants.

(** ** Pairing: the checks of [connect_friend] *)

Section Pairing.
Context {pwd_context : CryptContext}.

Lemma no_holder_find code l :
  (forall u, In u l -> UserDoc.friend_code u <> code) <->
  find (has_friend_code code) l = None.
Proof.
  split.
  - intros H. destruct (find (has_friend_code code) l) as [f|] eqn:E; [|reflexivity].
    apply (CollFacts.find_key_some UserDoc.friend_code) in E as [Hin Hc].
    now apply H in Hin.
  - intros H u Hin Hc. apply (find_none _ _ H) in Hin. unfold has_friend_code in Hin.
    apply String.eqb_neq in Hin. contradiction.
Qed.

(** [connect_friend], branch by branch. *)
Lemma connect_friend_unfold r cu d :
  connect_friend r cu d =
  if Py.truthy (User.partner_id cu) then Raise AlreadyPaired d else
  match find (has_friend_code (cfr_friend_code r)) (users d) with
  | None => Raise FriendCodeNotFound d
  | Some f =>
      if (UserDoc.user_id f =? User.user_id cu)%string then Raise SelfPairing d else
      if Py.truthy (UserDoc.partner_id f) then Raise TargetAlreadyPaired d else
      Return {| connect_message := "Connected successfully"; connect_partner := f |}
             (linked (User.user_id cu) (UserDoc.user_id f) d)
  end.
Proof.
  unfold connect_friend, bind, find_one, raise, ret, update_partner_id, modify, linked.
  destruct (Py.truthy (User.partner_id cu)); [reflexivity|].
  destruct (find _ (users d)) as [f|]; [|reflexivity].
  destruct (UserDoc.user_id f =? User.user_id cu)%string; [reflexivity|].
  now destruct (Py.truthy (UserDoc.partner_id f)).
Qed.

(** C2. [connect_friend] checks, in this order: the requester already has a
    partner ([AlreadyPaired]); nobody holds the code ([FriendCodeNotFound]);
    the first holder of the code is the requester ([SelfPairing]); that
    holder already has a partner ([TargetAlreadyPaired]).  Each failure
    leaves the store as it was; the two [partner_id] writes happen exactly
    when the four checks pass.  A [partner_id] is set when it is truthy. *)
Theorem connect_friend_check_order (r : ConnectFriendRequest) (cu : User.t) (d : db) :
  (Py.truthy (User.partner_id cu) = true ->
     connect_friend r cu d = Raise AlreadyPaired d) /\
  (Py.truthy (User.partner_id cu) = false ->
     (forall u, In u (users d) -> UserDoc.friend_code u <> cfr_friend_code r) ->
     connect_friend r cu d = Raise FriendCodeNotFound d) /\
  (forall f,
     Py.truthy (User.partner_id cu) = false ->
     find (has_friend_code (cfr_friend_code r)) (users d) = Some f ->
     (UserDoc.user_id f = User.user_id cu ->
        connect_friend r cu d = Raise SelfPairing d) /\
     (UserDoc.user_id f <> User.user_id cu ->
      Py.truthy (UserDoc.partner_id f) = true ->
        connect_friend r cu d = Raise TargetAlreadyPaired d) /\
     (UserDoc.user_id f <> User.user_id cu ->
      Py.truthy (UserDoc.partner_id f) = false ->
        connect_friend r cu d =
        Return {| connect_message := "Connected successfully"; connect_partner := f |}
               (linked (User.user_id cu) (UserDoc.user_id f) d))) /\
  (forall e d', connect_friend r cu d = Raise e d' ->
     d' = d /\
     (e = AlreadyPaired \/ e = FriendCodeNotFound \/ e = SelfPairing \/
      e = TargetAlreadyPaired)) /\
  (forall x d', connect_friend r cu d = Return x d' ->
     Py.truthy (User.partner_id cu) = false /\
     exists f, find (has_friend_code (cfr_friend_code r)) (users d) = Some f /\
               UserDoc.user_id f <> User.user_id cu /\
               Py.truthy (UserDoc.partner_id f) = false /\
               x = {| connect_message := "Connected successfully"; connect_partner := f |} /\
               d' = linked (User.user_id cu) (UserDoc.user_id f) d).
Proof.
  rewrite connect_friend_unfold.
  split; [|split; [|split; [|split]]].
  - intros ->. reflexivity.
  - intros -> Hnone. apply no_holder_find in Hnone. now rewrite Hnone.
  - intros f -> ->. split; [|split].
    + intros Hid. apply String.eqb_eq in Hid. now rewrite Hid.
    + intros Hid Hp. apply String.eqb_neq in Hid. now rewrite Hid, Hp.
    + intros Hid Hp. apply String.eqb_neq in Hid. now rewrite Hid, Hp.
  - intros e d' H.
    destruct (Py.truthy (User.partner_id cu)); [injection H as <- <-; auto|].
    destruct (find _ (users d)) as [f|]; [|injection H as <- <-; auto].
    destruct (UserDoc.user_id f =? User.user_id cu)%string;
      [injection H as <- <-; auto|].
    destruct (Py.truthy (UserDoc.partner_id f)); [injection H as <- <-; auto 6|].
    discriminate.
  - intros x d' H.
    destruct (Py.truthy (User.partner_id cu)); [discriminate|].
    destruct (find _ (users d)) as [f|]; [|discriminate].
    destruct (UserDoc.user_id f =? User.user_id cu)%string eqn:Eid; [discriminate|].
    destruct (Py.truthy (UserDoc.partner_id f)) eqn:Ep; [discriminate|].
    injection H as <- <-. apply String.eqb_neq in Eid.
    split; [reflexivity|]. exists f. auto 6.
Qed.

(** C1. On every store the server can reach, a successful
    [connect_friend] of user [A] with the friend code of user [B] leaves
    [A.partner_id = B.user_id] and [B.partner_id = A.user_id]; and on every
    such store each [partner_id] is unset or names a stored user whose
    [partner_id] points back. *)
Theorem pairing_symmetric_and_mutual (d : db) :
  reachable d ->
  (forall A B r x d',
     In A (users d) -> In B (users d) ->
     cfr_friend_code r = UserDoc.friend_code B ->
     connect_friend r (User.of_doc A) d = Return x d' ->
     exists A' B',
       find (has_user_id (UserDoc.user_id A)) (users d') = Some A' /\
       find (has_user_id (UserDoc.user_id B)) (users d') = Some B' /\
       UserDoc.partner_id A' = Some (UserDoc.user_id B) /\
       UserDoc.partner_id B' = Some (UserDoc.user_id A)) /\
  mutual_pairs d.
Proof.
  intros Hreach. pose proof (reachable_well_formed d Hreach) as Hwf.
  split; [|apply Hwf].
  intros A B r x d' HA HB Hcode Hret.
  rewrite connect_friend_unfold in Hret.
  destruct (Py.truthy (User.partner_id (User.of_doc A))); [discriminate|].
  destruct (find _ (users d)) as [f|] eqn:Hf; [|discriminate].
  destruct (UserDoc.user_id f =? User.user_id (User.of_doc A))%string eqn:Hne;
    [discriminate|].
  destruct (Py.truthy (UserDoc.partner_id f)); [discriminate|].
  injection Hret as _ <-. apply String.eqb_neq in Hne. simpl in Hne.
  (* the first holder of the code is B: friend codes are unique *)
  apply (CollFacts.find_key_some UserDoc.friend_code) in Hf as [Hfin Hfc].
  assert (f = B) as ->.
  { apply (CollFacts.key_injective UserDoc.friend_code (users d)); auto.
    - apply Hwf. - congruence. }
  unfold linked. simpl.
  rewrite connect_writes_as_map by apply Hwf.
  assert (Hnd : NoDup (map UserDoc.user_id (map (pair_up A B) (users d)))).
  { rewrite map_map. erewrite map_ext; [apply Hwf|]. apply pair_up_user_id. }
  pose proof (CollFacts.find_key_in UserDoc.user_id _ (pair_up A B A) Hnd
                (in_map _ _ _ HA)) as FA.
  pose proof (CollFacts.find_key_in UserDoc.user_id _ (pair_up A B B) Hnd
                (in_map _ _ _ HB)) as FB.
  rewrite pair_up_user_id in FA, FB.
  exists (pair_up A B A), (pair_up A B B).
  split; [exact FA|]. split; [exact FB|].
  split; unfold pair_up.
  - rewrite (proj2 (String.eqb_neq _ _)) by auto. now rewrite String.eqb_refl.
  - now rewrite String.eqb_refl.
Qed.


End Pairing.

(** ** Sessions: authentication, logout and the OAuth exchange *)

Section Sessions.
Context {pwd_context : CryptContext}.

Lemma replace_bearer_prefixed tok :
  Py.replace "Bearer " EmptyString ("Bearer " ++ tok)%string
  = Py.replace "Bearer " EmptyString tok.
Proof. unfold Py.replace. simpl. now destruct tok. Qed.

Lemma strip_bearer_prefixed tok : strip_bearer_prefix ("Bearer " ++ tok)%string = tok.
Proof.
  unfold strip_bearer_prefix.
  replace (String.prefix "Bearer " ("Bearer " ++ tok)%string) with true
    by (simpl; now destruct tok).
  simpl. rewrite Nat.sub_0_r.
  induction tok as [|c tok IH]; simpl; [reflexivity|]. now rewrite IH.
Qed.

(** The code and the specification's wording agree on every header whose
    token the replacement leaves as the prefix stripping does: above all
    on ["Bearer " ++ tok] when [tok] holds no further ["Bearer "]. *)
Lemma get_current_user_agrees env h d :
  Py.replace "Bearer " EmptyString h = strip_bearer_prefix h ->
  get_current_user env (Some h) d = Authenticate_spec env (Some h) d.
Proof.
  intros Heq. rewrite get_current_user_unfold. unfold Authenticate_spec.
  rewrite Heq. destruct (h =? EmptyString)%string; [reflexivity|].
  destruct (find _ (user_sessions d)) as [s|]; [|reflexivity].
  rewrite Z.gtb_ltb. reflexivity.
Qed.


Lemma find_exists {D} (q : D -> bool) (l : list D) x :
  In x l -> q x = true -> exists y, find q l = Some y.
Proof.
  intros Hin Hq. destruct (find q l) as [y|] eqn:E; [eauto|].
  apply (find_none _ _ E) in Hin. congruence.
Qed.

Lemma find_app_fresh {D} (q : D -> bool) (l : list D) x :
  find q l = None -> q x = true -> find q (l ++ [x]) = Some x.
Proof.
  induction l as [|y l IH]; simpl; intros Hf Hq; [now rewrite Hq|].
  destruct (q y); [discriminate | auto].
Qed.

Lemma no_session_find tok l :
  (forall s, In s l -> Session.session_token s <> tok) <->
  find (has_token tok) l = None.
Proof.
  split.
  - intros H. destruct (find (has_token tok) l) as [s|] eqn:E; [|reflexivity].
    apply (CollFacts.find_key_some Session.session_token) in E as [Hin Hc].
    now apply H in Hin.
  - intros H s Hin Hc. apply (find_none _ _ H) in Hin. unfold has_token in Hin.
    apply String.eqb_neq in Hin. contradiction.
Qed.

(** C7, as the code has it.  [logout] runs behind [get_current_user]: when
    authentication raises, the logout request raises the same error and the
    store is unchanged, so a token that no session record holds gives
    [Unauthenticated]; when authentication returns, the first session record
    holding the token is deleted and the request succeeds.  The delete step
    on its own is not an error on a token that no record holds. *)
Theorem logout_behind_authentication (env : Env) (authorization : option string) (d : db) :
  (forall e, get_current_user env authorization d = Raise e d ->
     handle env (POST_auth_logout authorization) d = Raise e d) /\
  ((forall s, In s (user_sessions d) ->
      Session.session_token s <> bearer_token authorization) ->
     exists e, Unauthenticated e /\
               handle env (POST_auth_logout authorization) d = Raise e d) /\
  (forall u, get_current_user env authorization d = Return u d ->
     handle env (POST_auth_logout authorization) d =
       Return (R_message "Logged out successfully")
         (set_user_sessions (Coll.delete_first (has_token (bearer_token authorization))) d)
     /\ exists l1 s l2,
          user_sessions d = l1 ++ s :: l2 /\
          find (has_token (bearer_token authorization)) (user_sessions d) = Some s /\
          Coll.delete_first (has_token (bearer_token authorization)) (user_sessions d)
          = l1 ++ l2) /\
  (forall u,
     (forall s, In s (user_sessions d) ->
        Session.session_token s <> bearer_token authorization) ->
     logout u authorization d = Return "Logged out successfully" d).
Proof.
  split; [|split; [|split]].
  - intros e He. simpl. unfold bind. now rewrite He.
  - intros Hnone. apply no_session_find in Hnone. simpl. unfold bind.
    rewrite get_current_user_unfold. unfold Unauthenticated.
    destruct authorization as [a|]; [|eauto].
    destruct (a =? EmptyString)%string; [eauto|].
    unfold bearer_token in Hnone. rewrite Hnone. eauto.
  - intros u Hu. simpl. unfold bind. rewrite Hu.
    rewrite get_current_user_unfold in Hu.
    destruct authorization as [a|]; [|discriminate].
    destruct (a =? EmptyString)%string eqn:Ea; [discriminate|].
    unfold logout, bind, modify, ret. simpl. rewrite Ea. simpl.
    split; [reflexivity|]. unfold bearer_token.
    destruct (find _ (user_sessions d)) as [s|] eqn:Es; [|discriminate].
    destruct (CollFacts.delete_first_split
                (has_token (Py.replace "Bearer " EmptyString a)) (user_sessions d))
      as [[Hf _]|(l1 & x & l2 & Hl & Hf & Hd)]; [congruence|].
    exists l1, x, l2. rewrite <- Es. auto.
  - intros u Hnone. apply no_session_find in Hnone.
    unfold logout, bind, modify, ret.
    destruct (Py.truthy authorization); simpl; [|reflexivity].
    destruct (CollFacts.delete_first_split
                (has_token (bearer_token authorization)) (user_sessions d))
      as [[_ Hd]|(l1 & x & l2 & _ & Hf & _)]; [|congruence].
    unfold bearer_token in Hd. unfold set_user_sessions. rewrite Hd.
    now rewrite db_eta.
Qed.

(** C8. A successful OAuth exchange appends one session record whose
    [session_token] is the token the external service returned, owned by the
    user holding the returned email; presented as a bearer token while the
    session has not expired, it authenticates as the owner of that record
    (given that no older record already holds the token and that the header
    stripping leaves the token intact). *)
Theorem oauth_session_reuses_external_token
    (env : Env) (session_id : option string) (d : db) x d' :
  create_session env session_id d = Return x d' ->
  let tok := sd_session_token (json (oauth env)) in
  x = json (oauth env) /\
  exists uid,
    user_sessions d' =
      user_sessions d ++ [Session.mk uid tok (now env + seven_days) (now env)] /\
    (exists u, In u (users d') /\ UserDoc.user_id u = uid /\
               UserDoc.email u = sd_email (json (oauth env))) /\
    forall env',
      (forall s, In s (user_sessions d) -> Session.session_token s <> tok) ->
      Py.replace "Bearer " EmptyString tok = tok ->
      now env' <= now env + seven_days ->
      exists u, find (has_user_id uid) (users d') = Some u /\
                get_current_user env' (Some ("Bearer " ++ tok)%string) d'
                = Return (User.of_doc u) d'.
Proof.
  intros Hret tok.
  assert (Hauth : forall uid us env',
            (exists u, In u us /\ UserDoc.user_id u = uid) ->
            (forall s, In s (user_sessions d) -> Session.session_token s <> tok) ->
            Py.replace "Bearer " EmptyString tok = tok ->
            now env' <= now env + seven_days ->
            exists u, find (has_user_id uid) us = Some u /\
              get_current_user env' (Some ("Bearer " ++ tok)%string)
                (mkdb us (user_sessions d ++
                            [Session.mk uid tok (now env + seven_days) (now env)])
                   (bucket_items d) (completed_items d))
              = Return (User.of_doc u)
                  (mkdb us (user_sessions d ++
                              [Session.mk uid tok (now env + seven_days) (now env)])
                     (bucket_items d) (completed_items d))).
  { intros uid us env' (u & Hu & Hid) Hnone Htok Hnow.
    destruct (find_exists (has_user_id uid) us u Hu) as [v Hv].
    { unfold has_user_id. rewrite Hid. apply String.eqb_refl. }
    exists v. split; [assumption|].
    rewrite get_current_user_unfold, replace_bearer_prefixed, Htok.
    change (("Bearer " ++ tok)%string =? EmptyString)%string with false.
    apply no_session_find in Hnone. cbn [user_sessions users].
    rewrite (find_app_fresh _ _ _ Hnone) by apply String.eqb_refl.
    cbn [Session.expires_at Session.user_id].
    rewrite (proj2 (Z.ltb_ge _ _)) by assumption.
    now rewrite Hv. }
  unfold create_session in Hret.
  destruct (Py.truthy session_id); simpl in Hret; [|discriminate].
  destruct (status_code (oauth env) =? 200); simpl in Hret; [|discriminate].
  unfold bind, find_one, ret, insert_session, insert_user, modify in Hret.
  destruct (find (has_email (sd_email (json (oauth env)))) (users d)) as [u|] eqn:Eu.
  - injection Hret as <- <-. split; [reflexivity|].
    apply (CollFacts.find_key_some UserDoc.email) in Eu as [Hin Hem].
    exists (UserDoc.user_id u). simpl. split; [reflexivity|]. split; [eauto|].
    intros env'. apply Hauth. eauto.
  - destruct (unique_friend_code_cases (friend_codes env) d) as [E|(c & E & _ & Hc)];
      rewrite E in Hret; [discriminate|].
    injection Hret as <- <-. split; [reflexivity|].
    eexists. simpl. split; [reflexivity|]. split.
    + eexists. split; [apply in_or_app; right; left; reflexivity|]. auto.
    + intros env'. apply Hauth.
      eexists. split; [apply in_or_app; right; left; reflexivity|]. reflexivity.
Qed.

End Sessions.

(** ** The shared list *)

Section SharedList.
Context {pwd_context : CryptContext}.

Lemma shared_with_has_In uid b :
  shared_with_has uid b = true <-> In uid (BucketItem.shared_with b).
Proof.
  unfold shared_with_has. rewrite existsb_exists. split.
  - intros (x & Hx & E). apply String.eqb_eq in E. now subst.
  - intros H. exists uid. split; [assumption | apply String.eqb_refl].
Qed.

Lemma no_match_find iid uid l :
  (forall b, In b l ->
     ~ (BucketItem.item_id b = iid /\ In uid (BucketItem.shared_with b) /\
        BucketItem.completed b = false)) <->
  find (completable iid uid) l = None.
Proof.
  split.
  - intros H. destruct (find (completable iid uid) l) as [b|] eqn:E; [|reflexivity].
    apply completable_found in E as (Hin & Hid & Hs & Hc).
    exfalso. apply (H b Hin). rewrite <- shared_with_has_In. auto.
  - intros H b Hin (Hid & Hs & Hc). apply (find_none _ _ H) in Hin.
    unfold completable, has_item_id in Hin.
    rewrite (proj2 (String.eqb_eq _ _) Hid), (proj2 (shared_with_has_In _ _) Hs), Hc in Hin.
    discriminate.
Qed.

Lemma complete_bucket_item_unfold env r cu d :
  complete_bucket_item env r cu d =
  match find (completable (cir_item_id r) (User.user_id cu)) (bucket_items d) with
  | None => Raise NotFound d
  | Some item =>
      let c :=
        CompletedItem.mk ("completed_" ++ Py.slice_to 12 (uuid_1 env))%string
          (cir_item_id r) (BucketItem.title item) (BucketItem.category item)
          (cir_photo_base64 r) (cir_notes r) (now env) (User.user_id cu) in
      Return c
        (set_completed_items (fun l => l ++ [c])
           (set_bucket_items
              (Coll.update_first (has_item_id (cir_item_id r)) set_completed) d))
  end.
Proof.
  unfold complete_bucket_item, bind, find_one, modify, raise, ret, insert_completed_item.
  now destruct (find _ (bucket_items d)).
Qed.

(** Completion records are only ever appended. *)
Lemma effect_completed_grows env req d d' :
  effect env d req d' -> exists l, completed_items d' = completed_items d ++ l.
Proof.
  intros H. inversion H; subst; simpl;
    try (exists []; now rewrite app_nil_r).
  now exists [c].
Qed.

Lemma run_completed_grows d d' :
  run d d' -> exists l, completed_items d' = completed_items d ++ l.
Proof.
  induction 1 as [|d' env req Hr [l IH] Hf].
  - exists []. now rewrite app_nil_r.
  - destruct (effect_completed_grows env req d' _ (serve_effect env req d')) as [l' E].
    exists (l ++ l'). unfold serve in *. now rewrite E, IH, app_assoc.
Qed.

(** C3. [complete_bucket_item] raises [NotFound] exactly when no bucket
    item has the requested id, lists the user in [shared_with] and is not yet
    completed, and it raises nothing else.  On a reachable store, once a
    completion has succeeded, every later completion of the same [item_id]
    raises [NotFound], whoever asks and whatever was served in between; and
    no two completion records of a reachable store share an [item_id], the
    records being only ever appended. *)
Theorem complete_is_one_way (env : Env) (r : CompleteItemRequest) (cu : User.t) (d : db) :
  ((exists d', complete_bucket_item env r cu d = Raise NotFound d') <->
   (forall b, In b (bucket_items d) ->
      ~ (BucketItem.item_id b = cir_item_id r /\
         In (User.user_id cu) (BucketItem.shared_with b) /\
         BucketItem.completed b = false))) /\
  (forall e d', complete_bucket_item env r cu d = Raise e d' -> e = NotFound /\ d' = d) /\
  complete_bucket_item env r cu d <> Pending /\
  (reachable d ->
     forall c d1, complete_bucket_item env r cu d = Return c d1 ->
     forall d2, run d1 d2 ->
     forall env' r' cu', cir_item_id r' = cir_item_id r ->
       complete_bucket_item env' r' cu' d2 = Raise NotFound d2) /\
  (reachable d ->
     NoDup (map CompletedItem.item_id (completed_items d)) /\
     forall d', run d d' -> exists l, completed_items d' = completed_items d ++ l).
Proof.
  rewrite complete_bucket_item_unfold.
  split; [|split; [|split; [|split]]].
  - rewrite no_match_find.
    destruct (find _ (bucket_items d)); split; intros H; eauto; try discriminate.
    now destruct H.
  - intros e d' H. destruct (find _ (bucket_items d)); [discriminate|].
    injection H as <- <-. auto.
  - now destruct (find _ (bucket_items d)).
  - intros Hreach c d1 Hret d2 Hrun env' r' cu' Hid.
    pose proof (reachable_well_formed d Hreach) as Hwf.
    destruct (find _ (bucket_items d)) as [b|] eqn:Eb; [|discriminate].
    cbv zeta in Hret. injection Hret as <- <-.
    (* the store after the completion is well formed and holds the record *)
    match type of Hrun with run ?s _ => set (d1 := s) in * end.
    assert (Hwf1 : well_formed d1).
    { apply (effect_well_formed env (POST_bucketlist_complete r None) d); simpl; auto.
      eapply eff_complete; [exact Eb | reflexivity]. }
    pose proof (run_well_formed d1 d2 Hwf1 Hrun) as Hwf2.
    destruct (run_completed_grows d1 d2 Hrun) as [l El].
    rewrite complete_bucket_item_unfold.
    destruct (find _ (bucket_items d2)) as [b2|] eqn:Eb2; [|reflexivity].
    apply completable_found in Eb2 as (Hin2 & Hid2 & _ & Hc2).
    exfalso.
    match goal with
    | _ : completed_items d2 = completed_items d1 ++ _ |- _ =>
        assert (Hc : exists c, In c (completed_items d2) /\
                               CompletedItem.item_id c = cir_item_id r)
    end.
    { rewrite El. subst d1. simpl. eexists. split.
      - apply in_or_app. left. apply in_or_app. right. left. reflexivity.
      - reflexivity. }
    destruct Hc as (c & Hc & Hcid).
    rewrite (wf_completed_flag d2 Hwf2 c b2) in Hc2; [discriminate|auto|auto|congruence].
  - intros Hreach. split.
    + apply (reachable_well_formed d Hreach).
    + apply run_completed_grows.
Qed.

Lemma effect_ownership env req d d' :
  effect env d req d' -> ownership_kept (bucket_items d) (bucket_items d').
Proof.
  intros H. inversion H; subst; simpl; try (now apply kept_in_place).
  - apply kept_append.
  - destruct (CollFacts.delete_first_split q (bucket_items d))
      as [[_ Hd]|(l1 & x & l2 & Hl & _ & Hd)]; rewrite Hd.
    + now apply kept_in_place.
    + now apply (kept_delete _ l1 x l2).
  - apply kept_in_place; now apply CollFacts.update_first_map.
Qed.

Lemma create_bucket_item_unfold env item cu d :
  create_bucket_item env item cu d =
  match find (has_user_id (User.user_id cu)) (users d) with
  | None => Raise AttributeError d
  | Some u =>
      match UserDoc.partner_id u with
      | None => Raise NoPartner d
      | Some p =>
          if (p =? EmptyString)%string then Raise NoPartner d else
          let b :=
            BucketItem.mk ("item_" ++ Py.slice_to 12 (uuid_1 env))%string
              (bic_title item) (bic_category item) (User.user_id cu) (now env) false
              [User.user_id cu; p] in
          Return b (set_bucket_items (fun l => l ++ [b]) d)
      end
  end.
Proof.
  unfold create_bucket_item, bind, find_one, raise, ret, insert_bucket_item, modify.
  destruct (find _ (users d)) as [u|]; [|reflexivity].
  destruct (UserDoc.partner_id u) as [p|]; [|reflexivity].
  now destruct (p =? EmptyString)%string.
Qed.

(** C4. [create_bucket_item] raises [NoPartner] whenever the stored
    [partner_id] of the creator is unset (falsy).  On a reachable store a
    successful creation appends an item whose [shared_with] is the creator's
    id followed by the stored partner's id, two different ids.  No request
    rewrites the [shared_with] of a stored item: a request leaves the items
    in place (at most flipping [completed]), appends one, or removes one. *)
Theorem create_shares_with_the_pair
    (env : Env) (item : BucketItemCreate) (cu : User.t) (d : db) :
  (forall u, find (has_user_id (User.user_id cu)) (users d) = Some u ->
     Py.truthy (UserDoc.partner_id u) = false ->
     create_bucket_item env item cu d = Raise NoPartner d) /\
  (reachable d ->
     forall b d', create_bucket_item env item cu d = Return b d' ->
     exists u p,
       find (has_user_id (User.user_id cu)) (users d) = Some u /\
       UserDoc.partner_id u = Some p /\ p <> User.user_id cu /\
       BucketItem.shared_with b = [User.user_id cu; p] /\
       bucket_items d' = bucket_items d ++ [b]) /\
  (forall env' req, ownership_kept (bucket_items d) (bucket_items (serve env' req d))).
Proof.
  rewrite create_bucket_item_unfold. split; [|split].
  - intros u -> Hp. destruct (UserDoc.partner_id u) as [p|]; [|reflexivity].
    simpl in Hp. apply negb_false_iff in Hp. now rewrite Hp.
  - intros Hreach b d' Hret.
    pose proof (reachable_well_formed d Hreach) as Hwf.
    destruct (find _ (users d)) as [u|] eqn:Eu; [|discriminate].
    destruct (UserDoc.partner_id u) as [p|] eqn:Ep; [|discriminate].
    destruct (p =? EmptyString)%string; [discriminate|].
    cbv zeta in Hret. injection Hret as <- <-.
    apply (CollFacts.find_key_some UserDoc.user_id) in Eu as [Hin Hid].
    destruct (wf_pairs d Hwf u p Hin Ep) as (_ & Hne & _).
    exists u, p. rewrite <- Hid. repeat split; auto.
  - intros env' req. apply (effect_ownership env' req), serve_effect.
Qed.


(** *** Listing the completed items *)

Lemma insert_desc_perm x l : Permutation (insert_desc x l) (x :: l).
Proof.
  induction l as [|y l IH]; simpl; [reflexivity|].
  destruct (CompletedItem.completed_at y <=? CompletedItem.completed_at x);
    [reflexivity|].
  rewrite IH. apply perm_swap.
Qed.

Lemma sort_completed_at_desc_perm l : Permutation (sort_completed_at_desc l) l.
Proof.
  induction l as [|x l IH]; simpl; [reflexivity|].
  rewrite insert_desc_perm. now constructor.
Qed.

Lemma insert_desc_sorted x l :
  StronglySorted newer l -> StronglySorted newer (insert_desc x l).
Proof.
  induction l as [|y l IH]; simpl; intros Hs.
  - repeat constructor.
  - inversion Hs as [|? ? Hs' Hy]; subst.
    destruct (CompletedItem.completed_at y <=? CompletedItem.completed_at x) eqn:E.
    + apply Z.leb_le in E. constructor; [assumption|].
      constructor; [exact E|].
      eapply Forall_impl; [|exact Hy]. unfold newer. intros z Hz. lia.
    + apply Z.leb_gt in E. constructor; [now apply IH|].
      eapply Permutation_Forall; [symmetry; apply insert_desc_perm|].
      constructor; [unfold newer; lia | assumption].
Qed.

Lemma sort_completed_at_desc_sorted l : StronglySorted newer (sort_completed_at_desc l).
Proof.
  induction l as [|x l IH]; simpl; [constructor|]. now apply insert_desc_sorted.
Qed.

Lemma firstn_sorted {A} (R : A -> A -> Prop) n l :
  StronglySorted R l -> StronglySorted R (firstn n l).
Proof.
  revert l. induction n as [|n IH]; intros l Hs; simpl; [constructor|].
  destruct l as [|x l]; [constructor|].
  inversion Hs as [|? ? Hs' Hx]; subst. constructor; [now apply IH|].
  rewrite Forall_forall in *. intros y Hy. apply Hx.
  rewrite <- (firstn_skipn n l). apply in_or_app. now left.
Qed.

Lemma completed_by_in_pair uid p c :
  completed_by_in [uid; p] c = true <->
  CompletedItem.completed_by c = uid \/ CompletedItem.completed_by c = p.
Proof.
  unfold completed_by_in. simpl. rewrite !orb_true_iff, !String.eqb_eq.
  intuition discriminate.
Qed.

Lemma get_completed_items_unfold cu d :
  get_completed_items cu d =
  match find (has_user_id (User.user_id cu)) (users d) with
  | None => Raise AttributeError d
  | Some u =>
      match UserDoc.partner_id u with
      | None => Return [] d
      | Some p =>
          if (p =? EmptyString)%string then Return [] d else
          Return (to_list 1000
                    (sort_completed_at_desc
                       (filter (completed_by_in [User.user_id cu; p])
                          (completed_items d)))) d
      end
  end.
Proof.
  unfold get_completed_items, bind, find_one, find_all, raise, ret.
  destruct (find _ (users d)) as [u|]; [|reflexivity].
  destruct (UserDoc.partner_id u) as [p|]; [|reflexivity].
  now destruct (p =? EmptyString)%string.
Qed.

(** C9, as the code has it.  [get_completed_items] returns the empty list
    when the stored [partner_id] of the user is unset (falsy).  Otherwise it
    returns completion records whose [completed_by] is the user or the
    partner, newest first, cut after the first 1000: the result is the first
    1000 entries of a newest-first arrangement of all matching records, and
    it is all of them when at most 1000 match. *)
Theorem list_completed_newest_first (cu : User.t) (d : db) (u : UserDoc.t) :
  find (has_user_id (User.user_id cu)) (users d) = Some u ->
  (Py.truthy (UserDoc.partner_id u) = false -> get_completed_items cu d = Return [] d) /\
  (forall p, UserDoc.partner_id u = Some p -> p <> EmptyString ->
     let matching :=
       filter (completed_by_in [User.user_id cu; p]) (completed_items d) in
     (forall c, In c matching <->
        In c (completed_items d) /\
        (CompletedItem.completed_by c = User.user_id cu \/
         CompletedItem.completed_by c = p)) /\
     exists sorted,
       Permutation sorted matching /\ StronglySorted newer sorted /\
       get_completed_items cu d = Return (firstn 1000 sorted) d /\
       StronglySorted newer (firstn 1000 sorted) /\
       ((length matching <= 1000)%nat -> firstn 1000 sorted = sorted)).
Proof.
  intros Hu. rewrite get_completed_items_unfold, Hu. split.
  - intros Hp. destruct (UserDoc.partner_id u) as [p|]; [|reflexivity].
    simpl in Hp. apply negb_false_iff in Hp. now rewrite Hp.
  - intros p -> Hp matching. split.
    + intros c. unfold matching. now rewrite filter_In, completed_by_in_pair.
    + exists (sort_completed_at_desc matching).
      rewrite (proj2 (String.eqb_neq _ _) Hp).
      pose proof (sort_completed_at_desc_perm matching) as Hperm.
      pose proof (sort_completed_at_desc_sorted matching) as Hsorted.
      repeat split; auto.
      * now apply firstn_sorted.
      * intros Hlen. apply firstn_all2.
        now rewrite (Permutation_length Hperm).
Qed.

(** *** Deleting an item *)

Lemma delete_bucket_item_unfold item_id cu d :
  delete_bucket_item item_id cu d =
  let q := fun b => has_item_id item_id b && shared_with_has (User.user_id cu) b in
  if existsb q (bucket_items d)
  then Return "Item deleted successfully" (set_bucket_items (Coll.delete_first q) d)
  else Raise ItemNotFound (set_bucket_items (Coll.delete_first q) d).
Proof.
  unfold delete_bucket_item, bind, delete_one_bucket_item, Coll.deleted_count, raise, ret.
  cbv zeta. now destruct (existsb _ (bucket_items d)).
Qed.

(** C10. [delete_bucket_item] does not look at [completed]: whenever some
    stored item has the id and lists the user in [shared_with], completed or
    not, the request succeeds and removes the first such item (that very
    item when ids are unique).  Users and completion records are untouched,
    so [get_completed_items] returns afterwards what it returned before. *)
Theorem delete_ignores_completed (item_id : string) (cu : User.t) (d : db) (b : BucketItem.t) :
  In b (bucket_items d) ->
  BucketItem.item_id b = item_id ->
  In (User.user_id cu) (BucketItem.shared_with b) ->
  exists d',
    delete_bucket_item item_id cu d = Return "Item deleted successfully" d' /\
    (exists l1 x l2,
       bucket_items d = l1 ++ x :: l2 /\ bucket_items d' = l1 ++ l2 /\
       BucketItem.item_id x = item_id /\
       In (User.user_id cu) (BucketItem.shared_with x) /\
       (NoDup (map BucketItem.item_id (bucket_items d)) -> x = b)) /\
    completed_items d' = completed_items d /\
    users d' = users d /\
    user_sessions d' = user_sessions d /\
    (forall cu' l, get_completed_items cu' d = Return l d ->
                   get_completed_items cu' d' = Return l d').
Proof.
  intros Hin Hid Hshared.
  set (q := fun x => has_item_id item_id x && shared_with_has (User.user_id cu) x).
  assert (Hq : q b = true).
  { unfold q, has_item_id. rewrite Hid, String.eqb_refl. simpl.
    now apply shared_with_has_In. }
  exists (set_bucket_items (Coll.delete_first q) d).
  rewrite delete_bucket_item_unfold. cbv zeta. fold q.
  rewrite (proj2 (existsb_exists q (bucket_items d))) by eauto.
  split; [reflexivity|]. split; [|split; [|split; [|split]]]; try reflexivity.
  - destruct (CollFacts.delete_first_split q (bucket_items d))
      as [[Hf _]|(l1 & x & l2 & Hl & Hf & Hd)].
    + apply (find_none _ _ Hf) in Hin. congruence.
    + apply find_some in Hf as [Hx Hqx]. unfold q in Hqx.
      apply andb_true_iff in Hqx as [Hxi Hxs]. apply String.eqb_eq in Hxi.
      apply shared_with_has_In in Hxs.
      exists l1, x, l2. simpl. repeat split; auto.
      intros Hnd. apply (CollFacts.key_injective BucketItem.item_id (bucket_items d));
        auto. congruence.
  - intros cu' l. rewrite !get_completed_items_unfold. simpl.
    destruct (find _ (users d)) as [u|]; [|discriminate].
    destruct (UserDoc.partner_id u) as [p|]; [|congruence].
    destruct (p =? EmptyString)%string; congruence.
Qed.


End SharedList.

(** ** Scripts reach stores *)

Section Scripts.
Context {pwd_context : CryptContext}.

Lemma is_new_sound id ids : is_new id ids = true -> ~ In id ids.
Proof.
  unfold is_new. intros H Hin. apply negb_true_iff in H.
  assert (existsb (String.eqb id) ids = true); [|congruence].
  apply existsb_exists. exists id. split; [assumption | apply String.eqb_refl].
Qed.

Lemma uuid_freshb_sound env req d : uuid_freshb env req d = true -> uuid_fresh env req d.
Proof.
  destruct req; simpl; trivial; try apply is_new_sound.
  intros H. apply andb_true_iff in H as [H1 H2]. split; now apply is_new_sound.
Qed.

Lemma run_trans a b c : run a b -> run b c -> run a c.
Proof. intros Hab Hbc. induction Hbc; [assumption|]. now apply run_serve. Qed.

Lemma play_run script d : all_fresh script d = true -> run d (play script d).
Proof.
  revert d. induction script as [|[env req] script IH]; intros d H; simpl in *.
  - apply run_here.
  - apply andb_true_iff in H as [H1 H2].
    apply (run_trans d (serve env req d)); [|now apply IH].
    apply run_serve; [apply run_here | now apply uuid_freshb_sound].
Qed.

Lemma play_app s1 s2 d : play (s1 ++ s2) d = play s2 (play s1 d).
Proof. apply fold_left_app. Qed.

End Scripts.

(** ** The scenarios, run *)

Section Scenarios.
Import Demo.
#[local] Existing Instance plain.

Lemma reachable_reg_a : reachable db_reg_a.
Proof. apply play_run. vm_compute. reflexivity. Qed.

Lemma reachable_reg_ab : reachable db_reg_ab.
Proof. apply play_run. vm_compute. reflexivity. Qed.

Lemma reachable_paired : reachable db_paired.
Proof. apply play_run. vm_compute. reflexivity. Qed.

Lemma reachable_item : reachable db_item.
Proof. apply play_run. vm_compute. reflexivity. Qed.

Lemma reachable_done : reachable db_done.
Proof. apply play_run. vm_compute. reflexivity. Qed.

Lemma reachable_oauth : reachable db_oauth.
Proof. apply play_run. vm_compute. reflexivity. Qed.

Lemma reachable_after_1001 : reachable (db_after 1001).
Proof. apply play_run. vm_compute. reflexivity. Qed.

(** The specification's scenario: register A and B, pair them, A creates
    and completes "Visit Paris", B lists the completed items. *)
Example scenario_visit_paris :
  map CompletedItem.photo_base64
    (match get_completed_items user_b db_done with Return l _ => l | _ => [] end)
  = ["P1"].
Proof. vm_compute. reflexivity. Qed.

(** *** Instances of the theorems on the scenario *)

Lemma pairing_symmetric_and_mutual_witness :
  mutual_pairs db_paired /\
  exists A' B',
    find (has_user_id "user_aaaaaaaaaaaa") (users db_paired) = Some A' /\
    find (has_user_id "user_bbbbbbbbbbbb") (users db_paired) = Some B' /\
    UserDoc.partner_id A' = Some "user_bbbbbbbbbbbb" /\
    UserDoc.partner_id B' = Some "user_aaaaaaaaaaaa".
Proof.
  split.
  - apply (pairing_symmetric_and_mutual db_paired), reachable_paired.
  - destruct (pairing_symmetric_and_mutual db_reg_ab reachable_reg_ab) as [H _].
    apply (H doc_a doc_b (Build_ConnectFriendRequest "BBBBB")
             {| connect_message := "Connected successfully"; connect_partner := doc_b |}
             db_paired).
    + left. reflexivity.
    + right. left. reflexivity.
    + reflexivity.
    + vm_compute. reflexivity.
Defined.

Lemma connect_friend_check_order_witness :
  connect_friend (Build_ConnectFriendRequest "BBBBB") user_a db_reg_ab
  = Return {| connect_message := "Connected successfully"; connect_partner := doc_b |}
           (linked "user_aaaaaaaaaaaa" "user_bbbbbbbbbbbb" db_reg_ab).
Proof.
  destruct (connect_friend_check_order (Build_ConnectFriendRequest "BBBBB") user_a db_reg_ab)
    as (_ & _ & H & _).
  destruct (H doc_b) as (_ & _ & Hok).
  - reflexivity.
  - reflexivity.
  - apply Hok; [discriminate | reflexivity].
Defined.

Lemma complete_is_one_way_witness :
  complete_bucket_item (env_at 7000 "333333333333")
    (Build_CompleteItemRequest "item_111111111111" "P2" None) user_b db_done
  = Raise NotFound db_done.
Proof.
  destruct (complete_is_one_way (env_at 5000 "222222222222")
              (Build_CompleteItemRequest "item_111111111111" "P1" None) user_a db_item)
    as (_ & _ & _ & H & _).
  apply (H reachable_item
           (CompletedItem.mk "completed_222222222222" "item_111111111111" "Visit Paris"
              "Travel" "P1" None 5000 "user_aaaaaaaaaaaa")
           db_done).
  - vm_compute. reflexivity.
  - apply run_here.
  - reflexivity.
Defined.

Lemma create_shares_with_the_pair_witness :
  let b :=
    BucketItem.mk "item_111111111111" "Visit Paris" "Travel" "user_aaaaaaaaaaaa" 4000
      false ["user_aaaaaaaaaaaa"; "user_bbbbbbbbbbbb"] in
  exists u p,
    find (has_user_id (User.user_id user_a)) (users db_paired) = Some u /\
    UserDoc.partner_id u = Some p /\ p <> User.user_id user_a /\
    BucketItem.shared_with b = [User.user_id user_a; p] /\
    bucket_items db_item = bucket_items db_paired ++ [b].
Proof.
  intros b.
  destruct (create_shares_with_the_pair (env_at 4000 "111111111111")
              (Build_BucketItemCreate "Visit Paris" "Travel") user_a db_paired)
    as (_ & H & _).
  apply (H reachable_paired b db_item).
  vm_compute. reflexivity.
Defined.

Lemma logout_behind_authentication_witness :
  handle (env_at 3000 EmptyString) (POST_auth_logout bearer_a) db_reg_a
  = Return (R_message "Logged out successfully") db_logged_out.
Proof.
  destruct (logout_behind_authentication (env_at 3000 EmptyString) bearer_a db_reg_a)
    as (_ & _ & H & _).
  destruct (H user_a) as [Hret _]; [vm_compute; reflexivity|].
  rewrite Hret. vm_compute. reflexivity.
Defined.

Lemma oauth_session_reuses_external_token_witness :
  exists uid,
    user_sessions db_oauth =
      user_sessions db_reg_a ++ [Session.mk uid "ext_tok" (2000 + seven_days) 2000].
Proof.
  destruct (oauth_session_reuses_external_token env_oauth (Some "sid") db_reg_a
              oauth_data db_oauth) as (_ & uid & Hs & _).
  - vm_compute. reflexivity.
  - exists uid. exact Hs.
Defined.

Lemma list_completed_newest_first_witness :
  get_completed_items user_a db_reg_ab = Return [] db_reg_ab.
Proof.
  destruct (list_completed_newest_first user_a db_reg_ab doc_a) as [H _].
  - reflexivity.
  - apply H. reflexivity.
Defined.

Lemma delete_ignores_completed_witness :
  exists d',
    delete_bucket_item "item_111111111111" user_b db_done
    = Return "Item deleted successfully" d' /\
    completed_items d' = completed_items db_done /\
    forall l, get_completed_items user_b db_done = Return l db_done ->
              get_completed_items user_b d' = Return l d'.
Proof.
  destruct (delete_ignores_completed "item_111111111111" user_b db_done
              (BucketItem.mk "item_111111111111" "Visit Paris" "Travel"
                 "user_aaaaaaaaaaaa" 4000 true
                 ["user_aaaaaaaaaaaa"; "user_bbbbbbbbbbbb"]))
    as (d' & Hdel & _ & Hc & _ & _ & Hlist).
  - left. reflexivity.
  - reflexivity.
  - right. left. reflexivity.
  - exists d'. auto.
Defined.

(** *** Where the code departs from the specification *)

(** C7. A second logout with the same header is an error: the first one
    deleted the session record, and [get_current_user] then rejects the
    token before [logout] runs. *)
Lemma logout_twice_second_fails :
  handle (env_at 3000 EmptyString) (POST_auth_logout bearer_a) db_reg_a
  = Return (R_message "Logged out successfully") db_logged_out /\
  (forall s, In s (user_sessions db_logged_out) ->
     Session.session_token s <> bearer_token bearer_a) /\
  handle (env_at 3001 EmptyString) (POST_auth_logout bearer_a) db_logged_out
  = Raise InvalidSession db_logged_out.
Proof.
  split; [vm_compute; reflexivity|].
  split; [intros s []|vm_compute; reflexivity].
Qed.

Lemma hd_error_In {A} (l : list A) x : hd_error l = Some x -> In x l.
Proof. destruct l; simpl; [discriminate|]. intros [= ->]. now left. Qed.

(** C9. After the pair has completed 1001 items, a store the server
    reaches, the listing returns 1000 records: the oldest completion record
    matches the filter and is left out. *)
Lemma list_completed_truncates :
  let d := db_after 1001 in
  let oldest :=
    CompletedItem.mk "completed_0" "item_0" "Visit Paris" "Travel" "P1" None 10001
      "user_bbbbbbbbbbbb" in
  reachable d /\
  exists u l,
    find (has_user_id (User.user_id user_a)) (users d) = Some u /\
    UserDoc.partner_id u = Some "user_bbbbbbbbbbbb" /\
    In oldest (completed_items d) /\
    CompletedItem.completed_by oldest = "user_bbbbbbbbbbbb" /\
    get_completed_items user_a d = Return l d /\
    length l = 1000%nat /\
    ~ In oldest l.
Proof.
  intros d oldest. split; [exact reachable_after_1001|].
  set (l := to_list 1000
              (sort_completed_at_desc
                 (filter (completed_by_in [User.user_id user_a; "user_bbbbbbbbbbbb"])
                    (completed_items d)))).
  assert (Husers : users d = users db_paired) by (vm_compute; reflexivity).
  assert (Hhd : hd_error (completed_items d) = Some oldest) by (vm_compute; reflexivity).
  assert (Hl : (Nat.eqb (length l) 1000
                && forallb (fun x => 10001 <? CompletedItem.completed_at x) l)%bool
               = true) by (vm_compute; reflexivity).
  assert (Hfind : find (has_user_id (User.user_id user_a)) (users db_paired)
                  = Some (set_partner_id "user_bbbbbbbbbbbb" doc_a))
    by (vm_compute; reflexivity).
  (* from here on the store is only known through these four facts *)
  clearbody d.
  apply andb_true_iff in Hl as [Hlen Hnew]. apply Nat.eqb_eq in Hlen.
  exists (set_partner_id "user_bbbbbbbbbbbb" doc_a), l.
  split; [rewrite Husers; exact Hfind|].
  split; [reflexivity|].
  split; [apply hd_error_In; exact Hhd|].
  split; [reflexivity|].
  split; [rewrite get_completed_items_unfold, Husers, Hfind; reflexivity|].
  split; [exact Hlen|].
  intros Hin. rewrite forallb_forall in Hnew. apply Hnew in Hin. discriminate.
Qed.

(** C5. ["Bearer "] is removed wherever it occurs in the header, not only
    as a prefix: a header that does not carry A's token as the
    specification reads it still authenticates as A. *)
Theorem bearer_removed_anywhere_in_header :
  strip_bearer_prefix "session_Bearer a1" = "session_Bearer a1" /\
  (forall s, In s (user_sessions db_reg_a) ->
     Session.session_token s <> "session_Bearer a1") /\
  Authenticate_spec (env_at 3000 EmptyString) (Some "session_Bearer a1") db_reg_a
  = Raise InvalidSession db_reg_a /\
  get_current_user (env_at 3000 EmptyString) (Some "session_Bearer a1") db_reg_a
  = Return user_a db_reg_a.
Proof.
  split; [reflexivity|].
  split; [|split; vm_compute; reflexivity].
  intros s Hin. vm_compute in Hin. destruct Hin as [<-|[]]. discriminate.
Qed.

(** C6. The OAuth exchange looks the returned email up and stores it as it
    comes: after A registered with [A@x.com] (stored lowercased), an exchange
    returning [A@x.com] provisions a second account, and the two stored
    emails are equal up to case. *)
Theorem oauth_email_stored_as_returned :
  reachable db_oauth /\
  map UserDoc.email (users db_oauth) = ["a@x.com"; "A@x.com"] /\
  Py.lower "A@x.com" = "a@x.com".
Proof.
  split; [exact reachable_oauth|]. split; vm_compute; reflexivity.
Qed.


End Scenarios.

(** * Further properties *)

(** ** Strings *)

Lemma lower_ascii_idempotent c : Py.lower_ascii (Py.lower_ascii c) = Py.lower_ascii c.
Proof. destruct c as [[] [] [] [] [] [] [] []]; reflexivity. Qed.

Lemma lower_idempotent s : Py.lower (Py.lower s) = Py.lower s.
Proof.
  induction s as [|c s IH]; simpl; [reflexivity|].
  now rewrite lower_ascii_idempotent, IH.
Qed.

Lemma prefix_cons_neq a b s1 s2 :
  a <> b -> String.prefix (String a s1) (String b s2) = false.
Proof. intros H. cbn [String.prefix]. now destruct (ascii_dec a b). Qed.

(** A header part without the letter [B] holds no ["Bearer "] to remove. *)
Lemma replace_bearer_free s :
  free_of "B" s = true -> Py.replace "Bearer " EmptyString s = s.
Proof.
  unfold Py.replace. induction s as [|c s IH]; [reflexivity|].
  cbn [free_of Py.replace_from]. intros H. apply andb_true_iff in H as [Hc Hs].
  apply negb_true_iff, Ascii.eqb_neq in Hc.
  rewrite prefix_cons_neq by congruence. now rewrite IH.
Qed.

Lemma free_of_session_token u : free_of "B" ("session_" ++ u) = free_of "B" u.
Proof. reflexivity. Qed.

(** ** Signing in: [register], [login], [create_session] *)

Section SignIn.
Context {pwd_context : CryptContext}.

Lemma register_unfold env r d :
  register env r d =
  match find (has_email (Py.lower (rr_email r))) (users d) with
  | Some _ => Raise EmailTaken d
  | None =>
      match unique_friend_code (friend_codes env) d with
      | Return c d1 =>
          Return {| login_session_token := ("session_" ++ uuid_2 env)%string;
                    login_user := User.of_doc (registered_doc env r c) |}
            (set_user_sessions
               (fun l => l ++ [session_doc env (UserDoc.user_id (registered_doc env r c))
                                 ("session_" ++ uuid_2 env)%string])
               (set_users (fun l => l ++ [registered_doc env r c]) d1))
      | Raise e d1 => Raise e d1
      | Pending => Pending
      end
  end.
Proof.
  unfold register, bind, find_one, raise, ret, insert_user, insert_session, modify.
  destruct (find _ (users d)); [reflexivity|].
  now destruct (unique_friend_code (friend_codes env) d).
Qed.

Lemma login_unfold env r d :
  login env r d =
  match find (has_email (Py.lower (lr_email r))) (users d) with
  | None => Raise InvalidCredentials d
  | Some u =>
      match UserDoc.password_hash u with
      | None => Raise OAuthOnlyAccount d
      | Some h =>
          if pwd_verify (lr_password r) h
          then Return {| login_session_token := ("session_" ++ uuid_1 env)%string;
                         login_user := User.of_doc u |}
                 (set_user_sessions
                    (fun l => l ++ [session_doc env (UserDoc.user_id u)
                                      ("session_" ++ uuid_1 env)%string]) d)
          else Raise InvalidCredentials d
      end
  end.
Proof.
  unfold login, bind, find_one, raise, ret, insert_session, modify.
  destruct (find _ (users d)) as [u|]; [|reflexivity].
  destruct (UserDoc.password_hash u) as [h|]; [|reflexivity].
  now destruct (pwd_verify (lr_password r) h).
Qed.

Lemma create_session_unfold env sid d :
  create_session env sid d =
  if negb (Py.truthy sid) then Raise SessionIdRequired d else
  if negb (status_code (oauth env) =? 200) then Raise ExternalAuthRejected d else
  match find (has_email (sd_email (json (oauth env)))) (users d) with
  | Some u =>
      Return (json (oauth env))
        (set_user_sessions
           (fun l => l ++ [session_doc env (UserDoc.user_id u)
                             (sd_session_token (json (oauth env)))]) d)
  | None =>
      match unique_friend_code (friend_codes env) d with
      | Return c d1 =>
          Return (json (oauth env))
            (set_user_sessions
               (fun l => l ++ [session_doc env (UserDoc.user_id (provisioned_doc env c))
                                 (sd_session_token (json (oauth env)))])
               (set_users (fun l => l ++ [provisioned_doc env c]) d1))
      | Raise e d1 => Raise e d1
      | Pending => Pending
      end
  end.
Proof.
  unfold create_session.
  destruct (negb (Py.truthy sid)); [reflexivity|].
  destruct (negb (status_code (oauth env) =? 200)); [reflexivity|].
  unfold bind, find_one, raise, ret, insert_user, insert_session, modify.
  destruct (find _ (users d)); [reflexivity|].
  now destruct (unique_friend_code (friend_codes env) d).
Qed.

(** A session record appended to a store whose older records do not hold
    its token: presented as a bearer token it is valid up to and including
    its expiry instant, and rejected as expired after it. *)
Lemma appended_session_authenticates env' d older uid tok expires created u :
  user_sessions d = older ++ [Session.mk uid tok expires created] ->
  (forall s, In s older -> Session.session_token s <> tok) ->
  free_of "B" tok = true ->
  find (has_user_id uid) (users d) = Some u ->
  get_current_user env' (Some ("Bearer " ++ tok)%string) d =
  if expires <? now env' then Raise SessionExpired d else Return (User.of_doc u) d.
Proof.
  intros Hs Hold Htok Hu.
  rewrite get_current_user_unfold, replace_bearer_prefixed, replace_bearer_free by assumption.
  change (("Bearer " ++ tok)%string =? EmptyString)%string with false.
  apply no_session_find in Hold.
  rewrite Hs, (find_app_fresh _ _ _ Hold) by apply String.eqb_refl.
  cbn [Session.expires_at Session.user_id]. now rewrite Hu.
Qed.

End SignIn.

(** ** What one request writes, in full *)

Section Writes.
Context {pwd_context : CryptContext}.

Lemma get_bucket_list_unfold cu d :
  get_bucket_list cu d =
  Return (to_list 1000
            (filter (fun b => shared_with_has (User.user_id cu) b
                              && negb (BucketItem.completed b)) (bucket_items d))) d.
Proof. reflexivity. Qed.

Lemma serve_change env req d : change env d req (serve env req d).
Proof.
  unfold serve.
  destruct req as [r|r|sid|auth|auth|r auth|auth|item auth|iid auth|r auth|auth];
    cbn [handle]; unfold bind at 1;
    try (destruct (get_current_user_cases env auth d) as [[e E]|(a & Ha & E)];
         rewrite E; cbn beta iota; [constructor|]; try unfold bind at 1).
  - rewrite register_unfold.
    destruct (find _ (users d)) eqn:Ee; [constructor|].
    destruct (unique_friend_code_cases (friend_codes env) d) as [E|(c & E & _ & Hc)];
      rewrite E; [constructor|].
    now apply ch_register.
  - rewrite login_unfold.
    destruct (find _ (users d)) as [u|] eqn:Eu; [|constructor].
    destruct (UserDoc.password_hash u); [|constructor].
    destruct (pwd_verify _ _); [|constructor].
    apply ch_session. now apply find_some in Eu.
  - rewrite create_session_unfold.
    destruct (negb (Py.truthy sid)); [constructor|].
    destruct (negb (status_code (oauth env) =? 200)); [constructor|].
    destruct (find _ (users d)) as [u|] eqn:Eu.
    + apply ch_session. now apply find_some in Eu.
    + destruct (unique_friend_code_cases (friend_codes env) d) as [E|(c & E & _ & Hc)];
        rewrite E; [constructor|].
      now apply ch_provision.
  - constructor.
  - unfold logout, bind, modify, ret.
    destruct (Py.truthy auth); cbn [store_after]; [apply ch_logout | constructor].
  - rewrite connect_friend_unfold. cbn [User.partner_id User.of_doc User.user_id].
    destruct (Py.truthy (UserDoc.partner_id a)) eqn:Ea; [constructor|].
    destruct (find (has_friend_code _) (users d)) as [f|] eqn:Ef; [|constructor].
    destruct (UserDoc.user_id f =? UserDoc.user_id a)%string eqn:Eid; [constructor|].
    destruct (Py.truthy (UserDoc.partner_id f)) eqn:Efp; [constructor|].
    apply String.eqb_neq in Eid. cbn [store_after ret].
    now apply (ch_connect env d _ a f (cfr_friend_code r)).
  - constructor.
  - rewrite create_bucket_item_unfold.
    cbn [User.of_doc User.user_id]. rewrite Ha.
    destruct (UserDoc.partner_id a) as [p|] eqn:Ep; [|constructor].
    destruct (p =? EmptyString)%string eqn:Ee; [constructor|].
    apply String.eqb_neq in Ee. cbn [store_after ret]. now apply ch_create.
  - rewrite delete_bucket_item_unfold. cbv zeta.
    destruct (existsb _ (bucket_items d)); cbn [store_after ret]; apply ch_delete.
  - rewrite complete_bucket_item_unfold.
    cbn [User.of_doc User.user_id].
    destruct (find _ (bucket_items d)) as [b|] eqn:Eb; [|constructor].
    cbn [store_after ret]. now apply ch_complete.
  - rewrite get_completed_items_unfold.
    cbn [User.of_doc User.user_id]. rewrite Ha.
    destruct (UserDoc.partner_id a) as [p|]; [|constructor].
    destruct (p =? EmptyString)%string; constructor.
Qed.

End Writes.

(** ** Accounts persist *)

Section Persistence.
Context {pwd_context : CryptContext}.

Lemma same_account_refl u : same_account u u.
Proof. unfold same_account. tauto. Qed.

Lemma same_account_trans u v w : same_account u v -> same_account v w -> same_account u w.
Proof. unfold same_account. intuition congruence. Qed.

Lemma same_accounts_refl l : Forall2 same_account l l.
Proof. induction l; constructor; auto using same_account_refl. Qed.

Lemma same_accounts_trans l1 l2 l3 :
  Forall2 same_account l1 l2 -> Forall2 same_account l2 l3 -> Forall2 same_account l1 l3.
Proof.
  intros H. revert l3. induction H; intros l3 H3; inversion H3; subst; constructor.
  - eapply same_account_trans; eauto.
  - auto.
Qed.

Lemma update_first_same_accounts q p l :
  Forall2 same_account l (Coll.update_first q (set_partner_id p) l).
Proof.
  induction l as [|u l IH]; simpl; [constructor|].
  destruct (q u); constructor; auto using same_accounts_refl, same_account_refl.
  unfold same_account. simpl. tauto.
Qed.

Lemma kept_accounts_refl l : kept_accounts l l.
Proof. exists l, []. rewrite app_nil_r. auto using same_accounts_refl. Qed.

Lemma kept_accounts_snoc l u : kept_accounts l (l ++ [u]).
Proof. exists l, [u]. auto using same_accounts_refl. Qed.

Lemma kept_accounts_trans l1 l2 l3 :
  kept_accounts l1 l2 -> kept_accounts l2 l3 -> kept_accounts l1 l3.
Proof.
  intros (k1 & e1 & -> & H1) (k2 & e2 & -> & H2).
  apply Forall2_app_inv_l in H2 as (k2a & k2b & Ha & Hb & ->).
  exists k2a, (k2b ++ e2). rewrite app_assoc. split; [reflexivity|].
  eapply same_accounts_trans; eauto.
Qed.

Lemma change_accounts env req d d' :
  change env d req d' -> kept_accounts (users d) (users d').
Proof.
  intros H. inversion H; subst; simpl;
    try apply kept_accounts_refl; try apply kept_accounts_snoc.
  eapply kept_accounts_trans.
  - exists (Coll.update_first (has_user_id (UserDoc.user_id a))
              (set_partner_id (UserDoc.user_id f)) (users d)), [].
    rewrite app_nil_r. split; [reflexivity | apply update_first_same_accounts].
  - eexists _, []. rewrite app_nil_r. split; [reflexivity|].
    apply update_first_same_accounts.
Qed.

Lemma run_accounts d d' : run d d' -> kept_accounts (users d) (users d').
Proof.
  induction 1 as [|d' env req Hr IH Hf]; [apply kept_accounts_refl|].
  eapply kept_accounts_trans; [exact IH|].
  apply (change_accounts env req), serve_change.
Qed.

(** A lookup that reads only the kept fields keeps finding the account. *)
Lemma find_kept (q : UserDoc.t -> bool) l l' u :
  (forall x x', same_account x x' -> q x' = q x) ->
  kept_accounts l l' -> find q l = Some u ->
  exists u', find q l' = Some u' /\ same_account u u'.
Proof.
  intros Hq (kept & extra & -> & HF). revert u.
  induction HF as [|x x' l k Hx HF IH]; intros u Hf; simpl in *; [discriminate|].
  rewrite (Hq x x' Hx). destruct (q x).
  - injection Hf as <-. eauto.
  - auto.
Qed.

Lemma has_email_kept e x x' : same_account x x' -> has_email e x' = has_email e x.
Proof. unfold has_email. intros (_ & -> & _). reflexivity. Qed.

Lemma has_user_id_kept k x x' : same_account x x' -> has_user_id k x' = has_user_id k x.
Proof. unfold has_user_id. intros (-> & _). reflexivity. Qed.

Lemma has_friend_code_kept k x x' :
  same_account x x' -> has_friend_code k x' = has_friend_code k x.
Proof. unfold has_friend_code. intros (_ & _ & _ & _ & _ & -> & _). reflexivity. Qed.

(** X1. No request removes an account or rewrites its id, email, name,
    password hash, picture, friend code or creation time: after any run the
    accounts are still there, in place, and a lookup by email, id or friend
    code that found an account finds the same account. *)
Theorem accounts_persist (d d' : db) :
  run d d' ->
  kept_accounts (users d) (users d') /\
  (forall e u, find (has_email e) (users d) = Some u ->
     exists u', find (has_email e) (users d') = Some u' /\ same_account u u') /\
  (forall k u, find (has_user_id k) (users d) = Some u ->
     exists u', find (has_user_id k) (users d') = Some u' /\ same_account u u') /\
  (forall c u, find (has_friend_code c) (users d) = Some u ->
     exists u', find (has_friend_code c) (users d') = Some u' /\ same_account u u').
Proof.
  intros Hr. pose proof (run_accounts d d' Hr) as Hk.
  split; [assumption|]. split; [|split]; intros k u Hf.
  - apply (find_kept _ (users d)); auto using has_email_kept.
  - apply (find_kept _ (users d)); auto using has_user_id_kept.
  - apply (find_kept _ (users d)); auto using has_friend_code_kept.
Qed.

Lemma register_returns env r d x d1 :
  register env r d = Return x d1 ->
  exists c,
    find (has_email (Py.lower (rr_email r))) (users d) = None /\
    find (has_friend_code c) (users d) = None /\ In c (friend_codes env) /\
    x = {| login_session_token := ("session_" ++ uuid_2 env)%string;
           login_user := User.of_doc (registered_doc env r c) |} /\
    d1 = set_user_sessions
           (fun l => l ++ [session_doc env (UserDoc.user_id (registered_doc env r c))
                             ("session_" ++ uuid_2 env)%string])
           (set_users (fun l => l ++ [registered_doc env r c]) d).
Proof.
  rewrite register_unfold.
  destruct (find _ (users d)) eqn:Ee; [discriminate|].
  destruct (unique_friend_code_cases (friend_codes env) d) as [E|(c & E & Hin & Hc)];
    rewrite E; [discriminate|].
  intros [= <- <-]. exists c. auto.
Qed.




End Persistence.

(** ** Further invariants of the reachable stores *)

Section MoreInvariants.
Context {pwd_context : CryptContext}.

Lemma reachable_inv (P : db -> Prop) :
  P empty_db ->
  (forall env req d, reachable d -> P d -> uuid_fresh env req d -> P (serve env req d)) ->
  forall d, reachable d -> P d.
Proof.
  intros H0 Hs d Hr. unfold reachable in Hr.
  induction Hr as [|d' env req Hr IH Hf]; [exact H0|]. now apply Hs.
Qed.

Lemma linked_users a f d :
  NoDup (map UserDoc.user_id (users d)) ->
  users (linked (UserDoc.user_id a) (UserDoc.user_id f) d) = map (pair_up a f) (users d).
Proof. intros Hnd. unfold linked. simpl. now apply connect_writes_as_map. Qed.

(** [connect_friend] rewrites two unpaired documents: a paired one stays. *)
Lemma pair_up_paired_unchanged l a f u p :
  NoDup (map UserDoc.user_id l) -> mutual_pairs_in l ->
  In a l -> In f l -> In u l ->
  Py.truthy (UserDoc.partner_id a) = false -> Py.truthy (UserDoc.partner_id f) = false ->
  UserDoc.partner_id u = Some p ->
  pair_up a f u = u.
Proof.
  intros Hnd Hm Ha Hf Hu Hpa Hpf Hp.
  apply (falsy_partner_unset l) in Hpa; auto.
  apply (falsy_partner_unset l) in Hpf; auto.
  unfold pair_up.
  destruct (UserDoc.user_id u =? UserDoc.user_id f)%string eqn:E1.
  - apply String.eqb_eq in E1.
    assert (u = f) by (eapply (CollFacts.key_injective UserDoc.user_id); eauto).
    congruence.
  - destruct (UserDoc.user_id u =? UserDoc.user_id a)%string eqn:E2; [|reflexivity].
    apply String.eqb_eq in E2.
    assert (u = a) by (eapply (CollFacts.key_injective UserDoc.user_id); eauto).
    congruence.
Qed.

Lemma change_partner env req d d' u p :
  well_formed d -> change env d req d' ->
  In u (users d) -> UserDoc.partner_id u = Some p ->
  In u (users d').
Proof.
  intros Hwf H Hu Hp.
  inversion H; subst; try (simpl; auto using in_or_app; fail).
  rewrite linked_users by apply Hwf.
  assert (Ha : In a (users d)) by now apply find_some in H0.
  assert (Hf : In f (users d)) by now apply find_some in H2.
  rewrite <- (pair_up_paired_unchanged (users d) a f u p Hwf.(wf_user_ids d)
                Hwf.(wf_pairs d) Ha Hf Hu H1 H4 Hp).
  now apply in_map.
Qed.

Lemma run_partner d d' u p :
  well_formed d -> run d d' ->
  In u (users d) -> UserDoc.partner_id u = Some p -> In u (users d').
Proof.
  intros Hwf Hr Hu Hp. induction Hr as [|d' env req Hr IH Hf]; [assumption|].
  apply (change_partner env req d' _ u p); auto.
  - now apply (run_well_formed d).
  - apply serve_change.
Qed.

(** X4. Pairing is for good: once a stored user has a partner, every later
    store holds that very document, so the partner never changes, and a
    later [connect_friend] by that user raises [AlreadyPaired]. *)
Theorem partner_is_permanent (d d' : db) (u : UserDoc.t) (p : string) :
  reachable d -> run d d' ->
  In u (users d) -> UserDoc.partner_id u = Some p ->
  In u (users d') /\
  find (has_user_id (UserDoc.user_id u)) (users d') = Some u /\
  forall r, connect_friend r (User.of_doc u) d' = Raise AlreadyPaired d'.
Proof.
  intros Hreach Hrun Hu Hp.
  pose proof (reachable_well_formed d Hreach) as Hwf.
  pose proof (run_well_formed d d' Hwf Hrun) as Hwf'.
  pose proof (run_partner d d' u p Hwf Hrun Hu Hp) as Hu'.
  split; [assumption|]. split.
  - apply (CollFacts.find_key_in UserDoc.user_id); [apply Hwf' | assumption].
  - intros r. rewrite connect_friend_unfold. simpl. rewrite Hp. simpl.
    destruct (wf_pairs d Hwf u p Hu Hp) as (Hne & _).
    now rewrite (proj2 (String.eqb_neq _ _) Hne).
Qed.

Lemma change_emails env req d d' :
  NoDup (map UserDoc.email (users d)) -> change env d req d' ->
  NoDup (map UserDoc.email (users d')).
Proof.
  intros Hnd H. inversion H; subst; simpl; auto.
  - apply CollFacts.nodup_snoc; [assumption|].
    now apply (CollFacts.find_key_none UserDoc.email).
  - apply CollFacts.nodup_snoc; [assumption|].
    now apply (CollFacts.find_key_none UserDoc.email).
  - now rewrite !(CollFacts.update_first_map UserDoc.email).
Qed.

(** X5. No two accounts of a reachable store hold the same email string, so
    a lookup by a stored account's email finds that account. *)
Theorem emails_unique (d : db) :
  reachable d ->
  NoDup (map UserDoc.email (users d)) /\
  forall u, In u (users d) -> find (has_email (UserDoc.email u)) (users d) = Some u.
Proof.
  intros Hr.
  assert (Hnd : NoDup (map UserDoc.email (users d))).
  { revert d Hr. apply reachable_inv; [constructor|].
    intros env req d _ IH _. apply (change_emails env req d); [assumption|].
    apply serve_change. }
  split; [assumption|]. intros u Hu.
  now apply (CollFacts.find_key_in UserDoc.email).
Qed.

Lemma kept_accounts_id l l' u :
  kept_accounts l l' -> In u l ->
  exists u', In u' l' /\ UserDoc.user_id u' = UserDoc.user_id u.
Proof.
  intros (kept & extra & -> & HF) Hu.
  induction HF as [|x x' l k Hx HF IH]; [destruct Hu|].
  destruct Hu as [->|Hu].
  - exists x'. split; [now left | apply Hx].
  - destruct (IH Hu) as (u' & Hin & Hid). exists u'. split; [now right | assumption].
Qed.

Lemma change_sessions env req d d' :
  sessions_owned d -> change env d req d' -> sessions_owned d'.
Proof.
  intros Ho H s Hs.
  pose proof (change_accounts env req d d' H) as Hk.
  assert (Hold : In s (user_sessions d) ->
                 exists u, In u (users d') /\ UserDoc.user_id u = Session.user_id s).
  { intros Hin. destruct (Ho s Hin) as (u & Hu & Hid).
    destruct (kept_accounts_id _ _ u Hk Hu) as (u' & Hu' & Hid').
    exists u'. split; [assumption | congruence]. }
  inversion H; subst; simpl in *; auto.
  - apply in_app_or in Hs as [Hs|[<-|[]]]; [auto|].
    eexists. split; [apply in_or_app; right; left; reflexivity | reflexivity].
  - apply in_app_or in Hs as [Hs|[<-|[]]]; [auto|].
    eexists. split; [apply in_or_app; right; left; reflexivity | reflexivity].
  - apply in_app_or in Hs as [Hs|[<-|[]]]; [auto|]. eauto.
  - apply CollFacts.delete_first_incl in Hs. auto.
Qed.

(** X6. Every session of a reachable store names a stored user, so
    [get_current_user] never raises [UserNotFound] there. *)
Theorem sessions_name_users (d : db) :
  reachable d ->
  sessions_owned d /\
  forall env authorization, get_current_user env authorization d <> Raise UserNotFound d.
Proof.
  intros Hr.
  assert (Ho : sessions_owned d).
  { revert d Hr. apply reachable_inv; [intros s []|].
    intros env req d _ IH _. apply (change_sessions env req d); [assumption|].
    apply serve_change. }
  split; [assumption|]. intros env authorization.
  rewrite get_current_user_unfold.
  destruct authorization as [a|]; [|discriminate].
  destruct (a =? EmptyString)%string; [discriminate|].
  destruct (find _ (user_sessions d)) as [s|] eqn:Es; [|discriminate].
  destruct (Session.expires_at s <? now env); [discriminate|].
  destruct (find _ (users d)) eqn:Eu; [discriminate|].
  apply find_some in Es as [Hs _]. destruct (Ho s Hs) as (u & Hu & Hid).
  apply (find_none _ _ Eu) in Hu. unfold has_user_id in Hu.
  rewrite Hid, String.eqb_refl in Hu. discriminate.
Qed.

End MoreInvariants.

(** ** Items and completion records of the reachable stores *)

Section ItemInvariants.
Context {pwd_context : CryptContext}.

Lemma update_first_in {D} (q : D -> bool) (g : D -> D) (l : list D) y :
  In y (Coll.update_first q g l) -> exists x, In x l /\ (y = x \/ y = g x).
Proof.
  induction l as [|z l IH]; simpl; [tauto|].
  destruct (q z); simpl; intros [<-|H]; eauto.
  destruct (IH H) as (x & Hx & Hy). eauto.
Qed.

Lemma change_items env req d d' :
  well_formed d -> items_of_pairs d -> change env d req d' -> items_of_pairs d'.
Proof.
  intros Hwf Hi H.
  assert (Hold : forall b, In b (bucket_items d) ->
            exists u v,
              In u (users d') /\ In v (users d') /\
              BucketItem.created_by b = UserDoc.user_id u /\
              BucketItem.shared_with b = [UserDoc.user_id u; UserDoc.user_id v] /\
              UserDoc.partner_id u = Some (UserDoc.user_id v) /\
              UserDoc.partner_id v = Some (UserDoc.user_id u)).
  { intros b Hb. destruct (Hi b Hb) as (u & v & Hu & Hv & Hc & Hs & Hpu & Hpv).
    exists u, v. repeat split; auto.
    - apply (change_partner env req d d' u _ Hwf H Hu Hpu).
    - apply (change_partner env req d d' v _ Hwf H Hv Hpv). }
  intros b Hb. inversion H; subst; simpl in Hb; auto.
  - (* create *)
    apply in_app_or in Hb as [Hb|[<-|[]]]; [auto|]. simpl.
    apply find_some in H0 as [Ha _].
    destruct (wf_pairs d Hwf a p Ha H1) as (_ & _ & v & Hv & <- & Hpv).
    exists a, v. auto 7.
  - (* delete *)
    apply CollFacts.delete_first_incl in Hb. auto.
  - (* complete *)
    apply update_first_in in Hb as (y & Hy & [->| ->]); auto.
    destruct (Hold y Hy) as (u & v & Hx). exists u, v. exact Hx.
Qed.

Lemma items_shared_by_pairs_inv (d : db) : reachable d -> items_of_pairs d.
Proof.
  revert d. apply reachable_inv; [intros b []|].
  intros env req d Hr IH _. apply (change_items env req d); auto.
  - now apply reachable_well_formed.
  - apply serve_change.
Qed.

(** X7. On a reachable store every bucket item is shared by exactly its
    creator and the creator's partner: [shared_with] lists the creator, then
    a second stored user, and the two are partners of each other. *)
Theorem items_shared_by_pairs (d : db) : reachable d -> items_of_pairs d.
Proof. apply items_shared_by_pairs_inv. Qed.

Lemma change_records env req d d' :
  well_formed d -> uuid_fresh env req d -> records_match_items d ->
  change env d req d' -> records_match_items d'.
Proof.
  intros Hwf Hf Hm H c b Hc Hb Hid.
  inversion H; subst; simpl in Hc, Hb; eauto.
  - (* create: the new id is fresh among the records *)
    apply in_app_or in Hb as [Hb|[<-|[]]]; [eauto|].
    destruct Hf as [_ Hf]. exfalso. apply Hf.
    apply in_map_iff. exists c. split; [symmetry; exact Hid | assumption].
  - (* delete *)
    apply CollFacts.delete_first_incl in Hb. eauto.
  - (* complete *)
    match goal with
    | Hfound : find (completable _ _) _ = Some ?x |- _ =>
        rename x into found;
        apply completable_found in Hfound as (Hb1 & Hid1 & Hs1 & _)
    end.
    apply update_first_in in Hb as (y & Hy & Hb).
    assert (Hsame : BucketItem.item_id b = BucketItem.item_id y /\
                    BucketItem.title b = BucketItem.title y /\
                    BucketItem.category b = BucketItem.category y /\
                    BucketItem.shared_with b = BucketItem.shared_with y)
      by (destruct Hb as [->| ->]; simpl; auto).
    destruct Hsame as (E1 & E2 & E3 & E4). rewrite E2, E3, E4.
    apply in_app_or in Hc as [Hc|[<-|[]]].
    + apply (Hm c y); congruence.
    + simpl in *.
      assert (y = found).
      { apply (CollFacts.key_injective BucketItem.item_id (bucket_items d)); auto.
        - apply Hwf. - congruence. }
      subst y. repeat split. now apply shared_with_has_In.
Qed.

(** X8. On a reachable store a completion record whose bucket item is
    still stored carries that item's title and category, and was made by
    one of the users the item is shared with. *)
Theorem records_copy_items (d : db) : reachable d -> records_match_items d.
Proof.
  revert d. apply reachable_inv; [intros c b []|].
  intros env req d Hr IH Hf. apply (change_records env req d); auto.
  - now apply reachable_well_formed.
  - apply serve_change.
Qed.

End ItemInvariants.

(** ** Listing, for the two partners *)

Section Listings.
Context {pwd_context : CryptContext}.

Lemma firstn_incl {A} n (l : list A) x : In x (firstn n l) -> In x l.
Proof.
  intros H. rewrite <- (firstn_skipn n l). apply in_or_app. now left.
Qed.

Lemma in_firstn_snoc {A} n (l : list A) x :
  (length l < n)%nat -> In x (firstn n (l ++ [x])).
Proof.
  intros H. rewrite firstn_all2; [apply in_or_app; right; now left|].
  rewrite length_app. simpl. lia.
Qed.

Lemma filter_snoc {A} (q : A -> bool) l x :
  q x = true -> filter q (l ++ [x]) = filter q l ++ [x].
Proof. intros H. rewrite filter_app. simpl. now rewrite H. Qed.

(** The partner of a stored, paired user, as a stored document. *)
Lemma partner_doc d u v :
  well_formed d -> In u (users d) -> In v (users d) ->
  UserDoc.partner_id u = Some (UserDoc.user_id v) ->
  UserDoc.partner_id v = Some (UserDoc.user_id u) /\
  UserDoc.user_id u <> UserDoc.user_id v.
Proof.
  intros Hwf Hu Hv Hp.
  destruct (wf_pairs d Hwf u _ Hu Hp) as (_ & Hne & v' & Hv' & Hid & Hpv).
  assert (v' = v)
    by (apply (CollFacts.key_injective UserDoc.user_id (users d)); auto; apply Hwf).
  subst v'. auto.
Qed.

(** X9. Two partners get the same list from [get_completed_items]. *)
Theorem partners_see_same_completed (d : db) (u v : UserDoc.t) :
  reachable d -> In u (users d) -> In v (users d) ->
  UserDoc.partner_id u = Some (UserDoc.user_id v) ->
  get_completed_items (User.of_doc u) d = get_completed_items (User.of_doc v) d.
Proof.
  intros Hr Hu Hv Hp. pose proof (reachable_well_formed d Hr) as Hwf.
  destruct (partner_doc d u v Hwf Hu Hv Hp) as [Hpv _].
  rewrite !get_completed_items_unfold. cbn [User.of_doc User.user_id].
  unfold has_user_id.
  rewrite !(CollFacts.find_key_in UserDoc.user_id) by (auto; apply Hwf).
  rewrite Hp, Hpv.
  rewrite (proj2 (String.eqb_neq _ _) (wf_user_ids_set d Hwf v Hv)).
  rewrite (proj2 (String.eqb_neq _ _) (wf_user_ids_set d Hwf u Hu)).
  assert (Hext : filter (completed_by_in [UserDoc.user_id u; UserDoc.user_id v])
                   (completed_items d)
                 = filter (completed_by_in [UserDoc.user_id v; UserDoc.user_id u])
                     (completed_items d)).
  { apply filter_ext. intros c. unfold completed_by_in. cbn [existsb].
    rewrite !orb_false_r. apply orb_comm. }
  now rewrite Hext.
Qed.

Lemma shared_with_partner d u v b :
  well_formed d -> items_of_pairs d ->
  In u (users d) -> In v (users d) ->
  UserDoc.partner_id u = Some (UserDoc.user_id v) ->
  In b (bucket_items d) ->
  shared_with_has (UserDoc.user_id u) b = true ->
  shared_with_has (UserDoc.user_id v) b = true.
Proof.
  intros Hwf Hi Hu Hv Hp Hb Hs.
  destruct (partner_doc d u v Hwf Hu Hv Hp) as [Hpv _].
  destruct (Hi b Hb) as (x & y & Hx & Hy & _ & Hsh & Hpx & Hpy).
  apply shared_with_has_In in Hs. apply shared_with_has_In.
  rewrite Hsh in *. destruct Hs as [E|[E|[]]].
  - assert (x = u)
      by (apply (CollFacts.key_injective UserDoc.user_id (users d)); auto; apply Hwf).
    subst x. right. left. congruence.
  - assert (y = u)
      by (apply (CollFacts.key_injective UserDoc.user_id (users d)); auto; apply Hwf).
    subst y. left. congruence.
Qed.

(** X10. Two partners get the same list from [get_bucket_list]. *)
Theorem partners_see_same_bucket_list (d : db) (u v : UserDoc.t) :
  reachable d -> In u (users d) -> In v (users d) ->
  UserDoc.partner_id u = Some (UserDoc.user_id v) ->
  get_bucket_list (User.of_doc u) d = get_bucket_list (User.of_doc v) d.
Proof.
  intros Hr Hu Hv Hp. pose proof (reachable_well_formed d Hr) as Hwf.
  pose proof (items_shared_by_pairs_inv d Hr) as Hi.
  destruct (partner_doc d u v Hwf Hu Hv Hp) as [Hpv _].
  rewrite !get_bucket_list_unfold. cbn [User.of_doc User.user_id].
  assert (Hext : filter (fun b => shared_with_has (UserDoc.user_id u) b
                                  && negb (BucketItem.completed b)) (bucket_items d)
                 = filter (fun b => shared_with_has (UserDoc.user_id v) b
                                    && negb (BucketItem.completed b)) (bucket_items d));
    [|now rewrite Hext].
  apply filter_ext_in. intros b Hb. f_equal.
  destruct (shared_with_has (UserDoc.user_id u) b) eqn:E1;
    destruct (shared_with_has (UserDoc.user_id v) b) eqn:E2; try reflexivity.
  - rewrite (shared_with_partner d u v b) in E2; auto.
  - rewrite (shared_with_partner d v u b) in E1; auto.
Qed.

(** X11. A created item shows up at once in the active list of every user
    it is shared with (of the creator and of the partner), as long as that
    user has fewer than 1000 active items. *)
Theorem created_item_is_listed env item cu d b d' cu' :
  create_bucket_item env item cu d = Return b d' ->
  In (User.user_id cu') (BucketItem.shared_with b) ->
  (length (filter (active_for (User.user_id cu')) (bucket_items d)) < 1000)%nat ->
  exists l, get_bucket_list cu' d' = Return l d' /\ In b l.
Proof.
  rewrite create_bucket_item_unfold. intros Hret Hin Hlen.
  destruct (find _ (users d)) as [u|]; [|discriminate].
  destruct (UserDoc.partner_id u) as [p|]; [|discriminate].
  destruct (p =? EmptyString)%string; [discriminate|].
  cbv zeta in Hret. injection Hret as <- <-.
  rewrite get_bucket_list_unfold. eexists. split; [reflexivity|].
  simpl bucket_items. fold (active_for (User.user_id cu')).
  rewrite filter_snoc.
  - now apply in_firstn_snoc.
  - unfold active_for. simpl. rewrite andb_true_r. now apply shared_with_has_In.
Qed.

Lemma completed_stays_completed env r cu d c d1 d2 :
  reachable d -> complete_bucket_item env r cu d = Return c d1 -> run d1 d2 ->
  forall b, In b (bucket_items d2) -> BucketItem.item_id b = cir_item_id r ->
            BucketItem.completed b = true.
Proof.
  intros Hreach Hret Hrun b Hb Hid.
  pose proof (reachable_well_formed d Hreach) as Hwf.
  rewrite complete_bucket_item_unfold in Hret.
  destruct (find _ (bucket_items d)) as [b0|] eqn:Eb; [|discriminate].
  cbv zeta in Hret. injection Hret as <- <-.
  match type of Hrun with run ?s _ => set (d1 := s) in * end.
  assert (Hwf1 : well_formed d1).
  { apply (effect_well_formed env (POST_bucketlist_complete r None) d); simpl; auto.
    eapply eff_complete; [exact Eb | reflexivity]. }
  pose proof (run_well_formed d1 d2 Hwf1 Hrun) as Hwf2.
  destruct (run_completed_grows d1 d2 Hrun) as [l El].
  eapply (wf_completed_flag d2 Hwf2 _ b); [|assumption|].
  - rewrite El. subst d1. simpl.
    apply in_or_app. left. apply in_or_app. right. left. reflexivity.
  - simpl. assumption.
Qed.

(** X12. Once an item has been completed on a reachable store, no active
    list shows it again, for any user and after any further requests. *)
Theorem completed_item_is_unlisted env r cu d c d1 d2 cu' l :
  reachable d -> complete_bucket_item env r cu d = Return c d1 -> run d1 d2 ->
  get_bucket_list cu' d2 = Return l d2 ->
  forall b, In b l -> BucketItem.item_id b <> cir_item_id r.
Proof.
  intros Hreach Hret Hrun Hl b Hb Hid.
  rewrite get_bucket_list_unfold in Hl.
  assert (El : l = to_list 1000
                     (filter (fun b => shared_with_has (User.user_id cu') b
                                       && negb (BucketItem.completed b))
                        (bucket_items d2))) by congruence.
  subst l. clear Hl. unfold to_list in Hb.
  apply firstn_incl, filter_In in Hb as [Hb Hq].
  apply andb_true_iff in Hq as [_ Hq]. apply negb_true_iff in Hq.
  rewrite (completed_stays_completed env r cu d c d1 d2) in Hq; auto. discriminate.
Qed.

(** X13. A completion shows up at once in the completed list of the user
    who made it and of the partner, as long as fewer than 1000 records
    matched before. *)
Theorem completion_is_listed env r cu d c d1 cu' u' p :
  complete_bucket_item env r cu d = Return c d1 ->
  find (has_user_id (User.user_id cu')) (users d1) = Some u' ->
  UserDoc.partner_id u' = Some p -> p <> EmptyString ->
  User.user_id cu = User.user_id cu' \/ User.user_id cu = p ->
  (length (filter (completed_by_in [User.user_id cu'; p]) (completed_items d)) < 1000)%nat ->
  exists l, get_completed_items cu' d1 = Return l d1 /\ In c l.
Proof.
  rewrite complete_bucket_item_unfold. intros Hret Hu Hp Hne Hby Hlen.
  destruct (find _ (bucket_items d)) as [b0|]; [|discriminate].
  cbv zeta in Hret. injection Hret as <- <-.
  rewrite get_completed_items_unfold, Hu, Hp, (proj2 (String.eqb_neq _ _) Hne).
  eexists. split; [reflexivity|]. simpl completed_items.
  rewrite filter_snoc.
  - unfold to_list. rewrite firstn_all2.
    + eapply Permutation_in; [symmetry; apply sort_completed_at_desc_perm|].
      apply in_or_app. right. now left.
    + rewrite (Permutation_length (sort_completed_at_desc_perm _)), length_app.
      simpl. lia.
  - apply completed_by_in_pair. simpl. exact Hby.
Qed.

End Listings.

(** ** Deleting, logging out *)

Section DeleteAndLogout.
Context {pwd_context : CryptContext}.

Lemma existsb_find {D} (q : D -> bool) (l : list D) :
  existsb q l = false <-> find q l = None.
Proof.
  induction l as [|x l IH]; simpl; [tauto|].
  destruct (q x); simpl; [split; discriminate | exact IH].
Qed.

Lemma delete_first_none {D} (q : D -> bool) (l : list D) :
  find q l = None -> Coll.delete_first q l = l.
Proof.
  intros H. destruct (CollFacts.delete_first_split q l) as [[_ E]|(l1 & x & l2 & _ & E & _)];
    [assumption | congruence].
Qed.

(** With unique keys, the key of the deleted document is gone. *)
Lemma delete_first_key_gone {D} (key : D -> string) (q : D -> bool) (l : list D) x :
  NoDup (map key l) -> find q l = Some x ->
  ~ In (key x) (map key (Coll.delete_first q l)).
Proof.
  induction l as [|z l IH]; simpl; [discriminate|].
  intros Hnd Hf. inversion Hnd as [|? ? Hnotin Hnd']; subst.
  destruct (q z).
  - injection Hf as <-. assumption.
  - simpl. intros [E|Hin]; [|now apply (IH Hnd' Hf)].
    apply Hnotin. rewrite E. apply in_map. now apply find_some in Hf.
Qed.

Lemma delete_first_other_key {D} (key : D -> string) (k k' : string) (l : list D) :
  k' <> k ->
  find (fun x => (key x =? k')%string) (Coll.delete_first (fun x => (key x =? k)%string) l)
  = find (fun x => (key x =? k')%string) l.
Proof.
  intros Hne. induction l as [|z l IH]; simpl; [reflexivity|].
  destruct (key z =? k)%string eqn:E; simpl.
  - apply String.eqb_eq in E. rewrite E.
    now rewrite (proj2 (String.eqb_neq _ _) (not_eq_sym Hne)).
  - now rewrite IH.
Qed.

Lemma delete_needs_a_shared_item_aux (item_id : string) (cu : User.t) (d : db) :
  ((forall b, In b (bucket_items d) ->
      ~ (BucketItem.item_id b = item_id /\
         In (User.user_id cu) (BucketItem.shared_with b))) <->
   delete_bucket_item item_id cu d = Raise ItemNotFound d) /\
  (forall e d', delete_bucket_item item_id cu d = Raise e d' ->
     e = ItemNotFound /\ d' = d).
Proof.
  rewrite delete_bucket_item_unfold. cbv zeta.
  set (q := fun b => has_item_id item_id b && shared_with_has (User.user_id cu) b).
  assert (Hq : (forall b, In b (bucket_items d) ->
                  ~ (BucketItem.item_id b = item_id /\
                     In (User.user_id cu) (BucketItem.shared_with b))) <->
               find q (bucket_items d) = None).
  { split.
    - intros H. destruct (find q (bucket_items d)) as [b|] eqn:E; [|reflexivity].
      apply find_some in E as [Hb Hqb]. unfold q in Hqb.
      apply andb_true_iff in Hqb as [H1 H2]. apply String.eqb_eq in H1.
      apply shared_with_has_In in H2. exfalso. apply (H b); auto.
    - intros H b Hb (H1 & H2). apply (find_none _ _ H) in Hb. unfold q, has_item_id in Hb.
      rewrite H1, String.eqb_refl, (proj2 (shared_with_has_In _ _) H2) in Hb.
      discriminate. }
  rewrite Hq. rewrite <- existsb_find.
  destruct (existsb q (bucket_items d)) eqn:E.
  - split; [split; discriminate | discriminate].
  - apply existsb_find in E.
    assert (Hd : set_bucket_items (Coll.delete_first q) d = d).
    { unfold set_bucket_items. rewrite (delete_first_none q _ E). apply db_eta. }
    rewrite Hd. split; [tauto|]. intros e d' [= <- <-]. auto.
Qed.


(** X14. [delete_bucket_item] raises [ItemNotFound] exactly when no stored
    item has the id and lists the user in [shared_with] (so also for an
    item of another pair), and then the store is left as it was. *)
Theorem delete_needs_a_shared_item (item_id : string) (cu : User.t) (d : db) :
  ((forall b, In b (bucket_items d) ->
      ~ (BucketItem.item_id b = item_id /\
         In (User.user_id cu) (BucketItem.shared_with b))) <->
   delete_bucket_item item_id cu d = Raise ItemNotFound d) /\
  (forall e d', delete_bucket_item item_id cu d = Raise e d' ->
     e = ItemNotFound /\ d' = d).
Proof. apply delete_needs_a_shared_item_aux. Qed.

(** X15. With unique item ids, a deleted item is gone: the store holds no
    item of that id, a second delete raises [ItemNotFound] and a completion
    raises [NotFound], for any user. *)
Theorem deleted_item_is_gone (item_id : string) (cu : User.t) (d : db) m d' :
  NoDup (map BucketItem.item_id (bucket_items d)) ->
  delete_bucket_item item_id cu d = Return m d' ->
  (forall b, In b (bucket_items d') -> BucketItem.item_id b <> item_id) /\
  (forall cu', delete_bucket_item item_id cu' d' = Raise ItemNotFound d') /\
  (forall env r cu', cir_item_id r = item_id ->
     complete_bucket_item env r cu' d' = Raise NotFound d').
Proof.
  intros Hnd. rewrite delete_bucket_item_unfold. cbv zeta.
  set (q := fun b => has_item_id item_id b && shared_with_has (User.user_id cu) b).
  destruct (existsb q (bucket_items d)) eqn:E; [|discriminate].
  intros [= <- <-].
  assert (Hgone : forall b, In b (bucket_items (set_bucket_items (Coll.delete_first q) d)) ->
                            BucketItem.item_id b <> item_id).
  { simpl. intros b Hb Hid.
    destruct (find q (bucket_items d)) as [x|] eqn:Ex;
      [|apply existsb_find in Ex; congruence].
    apply (delete_first_key_gone BucketItem.item_id q _ x Hnd Ex).
    apply find_some in Ex as [_ Hx]. unfold q in Hx.
    apply andb_true_iff in Hx as [Hx _]. apply String.eqb_eq in Hx.
    rewrite Hx, <- Hid. now apply in_map. }
  split; [exact Hgone|]. split.
  - intros cu'. apply (proj1 (delete_needs_a_shared_item_aux item_id cu' _)).
    intros b Hb [Hid _]. now apply (Hgone b).
  - intros env r cu' Hid. rewrite complete_bucket_item_unfold.
    destruct (find _ _) as [b|] eqn:Eb; [|reflexivity].
    apply completable_found in Eb as (Hb & Hbid & _). exfalso.
    apply (Hgone b Hb). congruence.
Qed.

End DeleteAndLogout.

Section Logout.
Context {pwd_context : CryptContext}.

Lemma logout_returns env authorization d m d' :
  handle env (POST_auth_logout authorization) d = Return m d' ->
  exists a u, authorization = Some a /\
    get_current_user env authorization d = Return u d /\
    d' = set_user_sessions (Coll.delete_first (has_token (bearer_token authorization))) d.
Proof.
  cbn [handle]. unfold bind at 1.
  destruct (get_current_user_cases env authorization d) as [[e E]|(a & Ha & E)];
    rewrite E; [discriminate|].
  rewrite get_current_user_unfold in E.
  destruct authorization as [h|]; [|discriminate].
  destruct (h =? EmptyString)%string eqn:Eh; [discriminate|].
  unfold logout, bind, modify, ret. simpl. rewrite Eh. simpl.
  intros [= <- <-]. exists h, (User.of_doc a). auto.
Qed.

(** X16. On a store whose session tokens are all different, a successful
    logout ends the session: the same header is afterwards rejected with
    [Invalid session], at any time. *)
Theorem logout_ends_the_session env authorization d m d' env' :
  NoDup (map Session.session_token (user_sessions d)) ->
  handle env (POST_auth_logout authorization) d = Return m d' ->
  get_current_user env' authorization d' = Raise InvalidSession d'.
Proof.
  intros Hnd Hret.
  apply logout_returns in Hret as (a & u & -> & Hu & ->).
  rewrite get_current_user_unfold in *.
  destruct (a =? EmptyString)%string; [discriminate|].
  cbn [user_sessions set_user_sessions]. unfold bearer_token in *.
  set (tok := Py.replace "Bearer " EmptyString a) in *.
  destruct (find (has_token tok) (user_sessions d)) as [s|] eqn:Es; [|discriminate].
  destruct (find (has_token tok) (Coll.delete_first (has_token tok) (user_sessions d)))
    as [s'|] eqn:Es'; [|reflexivity].
  exfalso.
  apply (delete_first_key_gone Session.session_token (has_token tok) _ s Hnd Es).
  apply (CollFacts.find_key_some Session.session_token) in Es as [_ Ek].
  apply (CollFacts.find_key_some Session.session_token) in Es' as [Hin Ek'].
  apply in_map_iff. exists s'. split; [congruence | assumption].
Qed.

Lemma find_token_after_delete k k' l :
  k' <> k ->
  find (has_token k') (Coll.delete_first (has_token k) l) = find (has_token k') l.
Proof. exact (delete_first_other_key Session.session_token k k' l). Qed.

(** X17. A logout leaves every other token as it was: a header carrying
    another token gets the same answer from [get_current_user] before and
    after. *)
Theorem logout_keeps_other_sessions env authorization d m d' env' other :
  handle env (POST_auth_logout authorization) d = Return m d' ->
  bearer_token other <> bearer_token authorization ->
  answer (get_current_user env' other d') = answer (get_current_user env' other d).
Proof.
  intros Hret Hne.
  apply logout_returns in Hret as (a & u & -> & _ & ->).
  rewrite !get_current_user_unfold.
  destruct other as [h|]; [|reflexivity].
  destruct (h =? EmptyString)%string; [reflexivity|].
  cbn [user_sessions users set_user_sessions].
  unfold bearer_token in *.
  rewrite find_token_after_delete by exact Hne.
  destruct (find _ (user_sessions d)) as [s|]; [|reflexivity].
  destruct (Session.expires_at s <? now env'); [reflexivity|].
  now destruct (find _ (users d)).
Qed.

End Logout.

(** ** Friend codes *)

Section FriendCodes.
Context {pwd_context : CryptContext}.

(** X18. The friend-code loop returns the first draw that no stored user
    holds, skipping the draws that are taken; it is still drawing when every
    draw it was given is taken. *)
Theorem friend_code_is_first_free (taken : list string) (c : string) (rest : list string)
    (d : db) :
  (forall t, In t taken -> exists u, In u (users d) /\ UserDoc.friend_code u = t) ->
  ((forall u, In u (users d) -> UserDoc.friend_code u <> c) ->
     unique_friend_code (taken ++ c :: rest) d = Return c d) /\
  unique_friend_code taken d = Pending.
Proof.
  intros Htaken.
  assert (Hskip : forall more, unique_friend_code (taken ++ more) d
                               = unique_friend_code more d).
  { intros more. induction taken as [|t taken IH]; [reflexivity|].
    simpl. unfold bind, find_one.
    destruct (Htaken t (or_introl eq_refl)) as (u & Hu & Hc).
    destruct (find (has_friend_code t) (users d)) eqn:E.
    - apply IH. intros t' Ht'. apply Htaken. now right.
    - apply (find_none _ _ E) in Hu. unfold has_friend_code in Hu.
      rewrite Hc, String.eqb_refl in Hu. discriminate. }
  split.
  - intros Hfree. rewrite Hskip. simpl. unfold bind, find_one, ret.
    now rewrite (proj1 (no_holder_find c (users d)) Hfree).
  - rewrite <- (app_nil_r taken) at 1. now rewrite Hskip.
Qed.




End FriendCodes.

(** ** Registering and logging in *)

Section Accounts.
Context {pwd_context : CryptContext}.



Lemma not_in_find_none k l :
  ~ In k (map UserDoc.user_id l) -> find (has_user_id k) l = None.
Proof.
  intros H. destruct (find (has_user_id k) l) as [u|] eqn:E; [|reflexivity].
  apply (CollFacts.find_key_some UserDoc.user_id) in E as [Hin Hk].
  exfalso. apply H. rewrite <- Hk. now apply in_map.
Qed.

(** X21. The token that [register] returns is a working bearer token for
    the new user for seven days: given a fresh user id, a token no older
    session holds and no letter [B] in the random part, [get_current_user]
    returns the registered user up to and including the expiry instant and
    raises [SessionExpired] after it. *)
Theorem register_token_authenticates env r d x d1 env' :
  register env r d = Return x d1 ->
  ~ In ("user_" ++ Py.slice_to 12 (uuid_1 env))%string (map UserDoc.user_id (users d)) ->
  (forall s, In s (user_sessions d) ->
     Session.session_token s <> login_session_token x) ->
  free_of "B" (uuid_2 env) = true ->
  get_current_user env' (Some ("Bearer " ++ login_session_token x)%string) d1 =
  if now env + seven_days <? now env' then Raise SessionExpired d1
  else Return (login_user x) d1.
Proof.
  intros Hreg Hfresh Htok Hfree.
  apply register_returns in Hreg as (c & _ & _ & _ & -> & ->).
  eapply (appended_session_authenticates env' _ (user_sessions d)); simpl.
  - reflexivity.
  - exact Htok.
  - exact Hfree.
  - apply find_app_fresh; [now apply not_in_find_none|].
    unfold has_user_id. simpl. apply String.eqb_refl.
Qed.


(** X23. The token that [login] returns is a working bearer token for the
    account for seven days (user ids unique, the token held by no older
    session, no letter [B] in its random part): valid up to and including
    the expiry instant, [SessionExpired] after it. *)
Theorem login_token_authenticates env r d x d1 env' :
  login env r d = Return x d1 ->
  NoDup (map UserDoc.user_id (users d)) ->
  (forall s, In s (user_sessions d) ->
     Session.session_token s <> login_session_token x) ->
  free_of "B" (uuid_1 env) = true ->
  get_current_user env' (Some ("Bearer " ++ login_session_token x)%string) d1 =
  if now env + seven_days <? now env' then Raise SessionExpired d1
  else Return (login_user x) d1.
Proof.
  rewrite login_unfold. intros Hlog Hnd Htok Hfree.
  destruct (find _ (users d)) as [u|] eqn:Eu; [|discriminate].
  destruct (UserDoc.password_hash u) as [h|]; [|discriminate].
  destruct (pwd_verify _ h); [|discriminate].
  injection Hlog as <- <-.
  eapply (appended_session_authenticates env' _ (user_sessions d)); simpl.
  - reflexivity.
  - exact Htok.
  - exact Hfree.
  - apply find_some in Eu as [Hin _].
    now apply (CollFacts.find_key_in UserDoc.user_id).
Qed.

(** X24. An OAuth exchange for an email that an earlier exchange already
    served creates no second account, whatever was served in between: it
    only appends a session, for the same user id as the first exchange. *)
Theorem oauth_exchange_reuses_account env sid d x d1 d2 env' sid' :
  create_session env sid d = Return x d1 ->
  run d1 d2 ->
  Py.truthy sid' = true ->
  status_code (oauth env') = 200 ->
  sd_email (json (oauth env')) = sd_email (json (oauth env)) ->
  exists uid,
    user_sessions d1 =
      user_sessions d ++ [session_doc env uid (sd_session_token (json (oauth env)))] /\
    create_session env' sid' d2 =
      Return (json (oauth env'))
        (set_user_sessions
           (fun l => l ++ [session_doc env' uid (sd_session_token (json (oauth env')))]) d2).
Proof.
  intros Hex Hrun Hsid Hstatus Hemail.
  assert (H1 : exists u,
             find (has_email (sd_email (json (oauth env)))) (users d1) = Some u /\
             user_sessions d1 =
               user_sessions d ++
               [session_doc env (UserDoc.user_id u) (sd_session_token (json (oauth env)))]).
  { rewrite create_session_unfold in Hex.
    destruct (negb (Py.truthy sid)); [discriminate|].
    destruct (negb (status_code (oauth env) =? 200)); [discriminate|].
    destruct (find _ (users d)) as [u|] eqn:Eu.
    - injection Hex as _ <-. exists u. auto.
    - destruct (unique_friend_code_cases (friend_codes env) d) as [E|(c & E & _)];
        rewrite E in Hex; [discriminate|].
      injection Hex as _ <-. exists (provisioned_doc env c). simpl. split; [|reflexivity].
      apply find_app_fresh; [assumption|]. unfold has_email. simpl. apply String.eqb_refl. }
  destruct H1 as (u & Hu & Hs).
  destruct (find_kept (has_email (sd_email (json (oauth env)))) (users d1) (users d2) u
              (has_email_kept _) (run_accounts d1 d2 Hrun) Hu)
    as (u' & Hu' & Hid & _).
  exists (UserDoc.user_id u). split; [exact Hs|].
  rewrite create_session_unfold, Hsid, Hstatus, Hemail, Hu', Hid. reflexivity.
Qed.

End Accounts.

(** ** The API as a whole *)

Section Api.
Context {pwd_context : CryptContext}.





(** X26. Every endpoint but the three sign-in ones runs behind
    [get_current_user]: when authentication raises, the request raises the
    same error and nothing of the handler runs. *)
Theorem unauthenticated_request_rejected (env : Env) (req : request) (d : db) a e :
  authorization_of req = Some a ->
  get_current_user env a d = Raise e d ->
  handle env req d = Raise e d.
Proof.
  intros Ha He.
  destruct req; simpl in Ha; try discriminate; injection Ha as ->;
    cbn [handle]; unfold bind at 1; now rewrite He.
Qed.

(** X27. The three listing requests only read: whatever they answer, the
    store after them is the store before. *)
Theorem read_only_requests (env : Env) (req : request) (d : db) :
  read_only req = true -> serve env req d = d.
Proof.
  intros Hro. unfold serve.
  destruct req as [r|r|sid|auth|auth|r auth|auth|item auth|iid auth|r auth|auth];
    try discriminate; cbn [handle]; unfold bind at 1;
    (destruct (get_current_user_cases env auth d) as [[e E]|(a & Ha & E)];
     rewrite E; [reflexivity|]); cbn beta iota.
  - reflexivity.
  - reflexivity.
  - unfold bind at 1. rewrite get_completed_items_unfold.
    cbn [User.of_doc User.user_id]. rewrite Ha.
    destruct (UserDoc.partner_id a) as [p|]; [|reflexivity].
    now destruct (p =? EmptyString)%string.
Qed.

End Api.

(** ** The further properties on the scenario *)

Section MoreScenarios.
Import Demo Demo2.
#[local] Existing Instance plain.

Lemma run_reg_a_paired : run db_reg_a db_paired.
Proof.
  change db_paired with (play (script_reg_a ++ skipn 1 script_paired) empty_db).
  rewrite play_app. apply play_run. vm_compute. reflexivity.
Qed.

Lemma run_paired_done : run db_paired db_done.
Proof.
  change db_done with (play (script_paired ++ skipn 3 script_done) empty_db).
  rewrite play_app. apply play_run. vm_compute. reflexivity.
Qed.

Lemma register_a_returns : register env_a register_a empty_db = Return session_a db_reg_a.
Proof. vm_compute. reflexivity. Qed.

Lemma accounts_persist_witness : kept_accounts (users db_reg_a) (users db_paired).
Proof. exact (proj1 (accounts_persist db_reg_a db_paired run_reg_a_paired)). Defined.



Lemma partner_is_permanent_witness : In doc_a_paired (users db_done).
Proof.
  apply (proj1 (partner_is_permanent db_paired db_done doc_a_paired "user_bbbbbbbbbbbb"
                  reachable_paired run_paired_done
                  (or_introl eq_refl) eq_refl)).
Defined.

Lemma emails_unique_witness : NoDup (map UserDoc.email (users db_oauth)).
Proof. exact (proj1 (emails_unique db_oauth reachable_oauth)). Defined.

Lemma sessions_name_users_witness : sessions_owned db_paired.
Proof. exact (proj1 (sessions_name_users db_paired reachable_paired)). Defined.

Lemma items_shared_by_pairs_witness : items_of_pairs db_item.
Proof. exact (items_shared_by_pairs db_item reachable_item). Defined.

Lemma records_copy_items_witness : records_match_items db_done.
Proof. exact (records_copy_items db_done reachable_done). Defined.

Lemma partners_see_same_completed_witness :
  get_completed_items (User.of_doc doc_a_paired) db_done
  = get_completed_items (User.of_doc doc_b_paired) db_done.
Proof.
  apply (partners_see_same_completed db_done doc_a_paired doc_b_paired reachable_done).
  - left. reflexivity.
  - right. left. reflexivity.
  - reflexivity.
Defined.

Lemma partners_see_same_bucket_list_witness :
  get_bucket_list (User.of_doc doc_a_paired) db_item
  = get_bucket_list (User.of_doc doc_b_paired) db_item.
Proof.
  apply (partners_see_same_bucket_list db_item doc_a_paired doc_b_paired reachable_item).
  - left. reflexivity.
  - right. left. reflexivity.
  - reflexivity.
Defined.

Lemma created_item_is_listed_witness :
  exists l, get_bucket_list user_b db_item = Return l db_item /\ In item_paris l.
Proof.
  apply (created_item_is_listed (env_at 4000 "111111111111")
           (Build_BucketItemCreate "Visit Paris" "Travel") user_a db_paired
           item_paris db_item user_b).
  - vm_compute. reflexivity.
  - right. left. reflexivity.
  - simpl. lia.
Defined.

Lemma run_done_two : run db_done db_two.
Proof. unfold db_two. rewrite play_app. apply play_run. vm_compute. reflexivity. Qed.

Lemma completed_item_is_unlisted_witness :
  get_bucket_list user_a db_two = Return [item_sail] db_two /\
  BucketItem.item_id item_sail <> cir_item_id
                                    (Build_CompleteItemRequest "item_111111111111" "P1" None).
Proof.
  split; [vm_compute; reflexivity|].
  apply (completed_item_is_unlisted (env_at 5000 "222222222222")
           (Build_CompleteItemRequest "item_111111111111" "P1" None) user_a db_item
           record_paris db_done db_two user_a [item_sail]).
  - exact reachable_item.
  - vm_compute. reflexivity.
  - exact run_done_two.
  - vm_compute. reflexivity.
  - left. reflexivity.
Defined.

Lemma completion_is_listed_witness :
  exists l, get_completed_items user_b db_done = Return l db_done /\ In record_paris l.
Proof.
  apply (completion_is_listed (env_at 5000 "222222222222")
           (Build_CompleteItemRequest "item_111111111111" "P1" None) user_a db_item
           record_paris db_done user_b doc_b_paired "user_aaaaaaaaaaaa").
  - vm_compute. reflexivity.
  - vm_compute. reflexivity.
  - reflexivity.
  - discriminate.
  - right. reflexivity.
  - simpl. lia.
Defined.

Lemma delete_needs_a_shared_item_witness :
  delete_bucket_item "item_111111111111" stranger db_item = Raise ItemNotFound db_item.
Proof.
  apply (proj1 (proj1 (delete_needs_a_shared_item "item_111111111111" stranger db_item))).
  intros b Hb [_ Hs]. vm_compute in Hb. destruct Hb as [<-|[]].
  simpl in Hs. destruct Hs as [H|[H|[]]]; discriminate.
Defined.

Lemma deleted_item_is_gone_witness :
  delete_bucket_item "item_111111111111" user_a db_deleted = Raise ItemNotFound db_deleted.
Proof.
  destruct (deleted_item_is_gone "item_111111111111" user_b db_done
              "Item deleted successfully" db_deleted) as (_ & H & _).
  - vm_compute. repeat constructor. simpl. tauto.
  - vm_compute. reflexivity.
  - apply H.
Defined.

Lemma logout_ends_the_session_witness :
  get_current_user (env_at 3001 EmptyString) bearer_a db_logged_out
  = Raise InvalidSession db_logged_out.
Proof.
  apply (logout_ends_the_session (env_at 3000 EmptyString) bearer_a db_reg_a
           (R_message "Logged out successfully")).
  - vm_compute. repeat constructor. simpl. tauto.
  - vm_compute. reflexivity.
Defined.

Lemma logout_keeps_other_sessions_witness :
  answer (get_current_user (env_at 3001 EmptyString) bearer_b
            (serve (env_at 3000 EmptyString) (POST_auth_logout bearer_a) db_reg_ab))
  = answer (get_current_user (env_at 3001 EmptyString) bearer_b db_reg_ab).
Proof.
  apply (logout_keeps_other_sessions (env_at 3000 EmptyString) bearer_a db_reg_ab
           (R_message "Logged out successfully")).
  - vm_compute. reflexivity.
  - vm_compute. discriminate.
Defined.

Lemma friend_code_is_first_free_witness :
  unique_friend_code (["AAAAA"] ++ "BBBBB" :: []) db_reg_a = Return "BBBBB" db_reg_a.
Proof.
  apply (proj1 (friend_code_is_first_free ["AAAAA"] "BBBBB" [] db_reg_a
                  (fun t Ht => match Ht with
                               | or_introl E =>
                                   ex_intro _ doc_a (conj (or_introl eq_refl) E)
                               | or_intror F => match F with end
                               end))).
  intros u Hu. vm_compute in Hu. destruct Hu as [<-|[]]. discriminate.
Defined.



Lemma register_token_authenticates_witness :
  get_current_user (env_at 5000 EmptyString)
    (Some ("Bearer " ++ login_session_token session_a)%string) db_reg_a
  = if now env_a + seven_days <? now (env_at 5000 EmptyString)
    then Raise SessionExpired db_reg_a
    else Return (login_user session_a) db_reg_a.
Proof.
  apply (register_token_authenticates env_a register_a empty_db session_a db_reg_a).
  - exact register_a_returns.
  - simpl. tauto.
  - intros s [].
  - reflexivity.
Defined.


Lemma login_token_authenticates_witness :
  get_current_user (env_at 5000 EmptyString) (Some "Bearer session_a2") db_login
  = if now env_login + seven_days <? now (env_at 5000 EmptyString)
    then Raise SessionExpired db_login
    else Return user_a db_login.
Proof.
  apply (login_token_authenticates env_login login_a db_reg_a
           {| login_session_token := "session_a2"; login_user := user_a |} db_login).
  - vm_compute. reflexivity.
  - vm_compute. repeat constructor. simpl. tauto.
  - intros s Hs. vm_compute in Hs. destruct Hs as [<-|[]]. discriminate.
  - reflexivity.
Defined.

Lemma oauth_exchange_reuses_account_witness :
  exists uid,
    user_sessions db_oauth =
      user_sessions db_reg_a ++ [session_doc env_oauth uid "ext_tok"] /\
    create_session env_oauth_again (Some "sid2") db_oauth =
      Return (json (oauth env_oauth_again))
        (set_user_sessions (fun l => l ++ [session_doc env_oauth_again uid "ext_tok2"])
           db_oauth).
Proof.
  apply (oauth_exchange_reuses_account env_oauth (Some "sid") db_reg_a oauth_data
           db_oauth db_oauth env_oauth_again (Some "sid2")).
  - vm_compute. reflexivity.
  - apply run_here.
  - reflexivity.
  - reflexivity.
  - reflexivity.
Defined.


Lemma unauthenticated_request_rejected_witness :
  handle (env_at 4500 EmptyString) (DELETE_bucketlist "item_111111111111" None) db_item
  = Raise NotAuthenticated db_item.
Proof.
  apply (unauthenticated_request_rejected (env_at 4500 EmptyString)
           (DELETE_bucketlist "item_111111111111" None) db_item None NotAuthenticated).
  - reflexivity.
  - reflexivity.
Defined.

Lemma read_only_requests_witness :
  serve (env_at 4500 EmptyString) (GET_bucketlist bearer_a) db_item = db_item.
Proof.
  apply (read_only_requests (env_at 4500 EmptyString) (GET_bucketlist bearer_a) db_item).
  reflexivity.
Defined.

End MoreScenarios.
